(** * Contribution-calendar SVG generator: model and properties

    Shallow embedding of [scripts/generate-contrib-svg.mjs].  The script
    exists in two revisions: the later one has a five-colour palette, a
    header line, a legend and month/ordinal tooltips ([Module Rev1], source
    lines 1-211); the earlier one has a four-colour palette and
    date-prefixed tooltips ([Module Rev2], source lines 212-378).  Code that
    is textually the same in both revisions is modelled once, before the two
    modules.

    JavaScript strings are modelled as [string] (a sequence of bytes; the
    reserved markup characters and everything the script itself writes are
    ASCII), integers as [Z], the [Map] built per week as a [gmap Z Day]. *)

From Stdlib Require Import ZArith Ascii String Lia.
From stdpp Require Import base list gmap strings.

Local Open Scope Z_scope.

(** ** Strings *)

Module JsString.

(** [s.endsWith(t)]: the last [length t] characters of [s] are [t]. *)
Definition endsWith (s t : string) : bool :=
  let ls := String.length s in
  let lt := String.length t in
  if (lt <=? ls)%nat
  then String.eqb (String.substring (ls - lt) lt s) t
  else false.

(** [s.replaceAll(c, rep)] for a pattern [c] of one character and a
    replacement without [$] patterns, the only form the script uses. *)
Fixpoint replaceAll (s : string) (c : ascii) (rep : string) : string :=
  match s with
  | EmptyString => EmptyString
  | String a s' =>
      if Ascii.eqb a c
      then rep +:+ replaceAll s' c rep
      else String a (replaceAll s' c rep)
  end.

(** [s.split(sep)] for a separator of one character: the pieces between
    the separators, in order; never the empty list. *)
Fixpoint split (s : string) (sep : ascii) : list string :=
  match s with
  | EmptyString => [EmptyString]
  | String a s' =>
      if Ascii.eqb a sep
      then EmptyString :: split s' sep
      else match split s' sep with
           | [] => [String a EmptyString]
           | p :: ps => String a p :: ps
           end
  end.

(** [s.includes(t)] *)
Fixpoint includes (s t : string) : bool :=
  String.prefix t s ||
  match s with
  | EmptyString => false
  | String _ s' => includes s' t
  end.

(** Truthiness of a string: only the empty string is falsy. *)
Definition truthy (s : string) : bool :=
  match s with
  | EmptyString => false
  | String _ _ => true
  end.

End JsString.

(** ** Numbers *)

Module JsNumber.

Definition digit_char (d : Z) : ascii := ascii_of_nat (48 + Z.to_nat d).

(** Decimal digits of a non-negative integer, most significant first.
    The recursion is on a bound on the number of digits. *)
Fixpoint digits (fuel : nat) (n : Z) : string :=
  match fuel with
  | O => EmptyString
  | S fuel' =>
      if n <? 10
      then String (digit_char n) EmptyString
      else digits fuel' (n / 10) +:+ String (digit_char (n mod 10)) EmptyString
  end.

(** The integers a JavaScript number holds exactly,
    [Number.MAX_SAFE_INTEGER] and its negative being the ends. *)
Definition MAX_SAFE_INTEGER : Z := 9007199254740991.

Definition safe_integer (z : Z) : Prop :=
  - MAX_SAFE_INTEGER <= z <= MAX_SAFE_INTEGER.

(** [String(n)] for a safe integer [n]: its decimal digits, after a minus
    sign when it is negative.  Beyond the safe range a JavaScript number is
    a rounded double, printed with the digits of the rounding and, from
    1e21 on, in exponent notation; the model does not follow it there, and
    what is proved of printed numbers is proved of safe integers. *)
Definition toString (n : Z) : string :=
  if n <? 0
  then String "-"%char (digits (S (Z.to_nat (Z.log2 (- n)))) (- n))
  else digits (S (Z.to_nat (Z.log2 n))) n.

(** A number as the script meets it: an integer or [NaN]. *)
Inductive num : Type :=
| NaN
| Int (z : Z).

Definition is_digit (a : ascii) : bool :=
  let n := nat_of_ascii a in ((48 <=? n) && (n <=? 57))%nat.

Fixpoint all_digits (s : string) : bool :=
  match s with
  | EmptyString => true
  | String a s' => is_digit a && all_digits s'
  end.

Fixpoint digits_value (acc : Z) (s : string) : Z :=
  match s with
  | EmptyString => acc
  | String a s' => digits_value (10 * acc + (Z.of_nat (nat_of_ascii a) - 48)) s'
  end.

(** [Number(s)] on the strings an ISO date splits into: a run of decimal
    digits is its value and the empty string is 0.  The value is exact
    when it is a safe integer; beyond that [Number] rounds to a double and
    the model does not follow it.  Every other string is taken to [NaN];
    the further literal forms [Number] accepts (sign, surrounding blanks,
    fraction, exponent, radix prefix, Infinity) do not occur in the dates
    the API returns and are left out, so what is proved of parsed dates is
    proved of runs of digits with safe values. *)
Definition Number (s : string) : num :=
  if all_digits s then Int (digits_value 0 s) else NaN.

(** [String(v)] for a value that is a number or [undefined]. *)
Definition String_ (v : option num) : string :=
  match v with
  | None => "undefined"
  | Some NaN => "NaN"
  | Some (Int z) => toString z
  end.

(** [v - k] for an integer constant [k]: [undefined] and [NaN] give [NaN]. *)
Definition minus (v : option num) (k : Z) : num :=
  match v with
  | Some (Int z) => Int (z - k)
  | _ => NaN
  end.

End JsNumber.

Import JsString JsNumber.

(** ** Paths *)

Module JsPath.

Definition starts_with_slash (p : string) : bool :=
  match p with
  | String c _ => Ascii.eqb c "/"
  | EmptyString => false
  end.

Fixpoint ends_with_slash (p : string) : bool :=
  match p with
  | EmptyString => false
  | String c EmptyString => Ascii.eqb c "/"
  | String _ p' => ends_with_slash p'
  end.

(** [normalizeString] of Node's [path] module on the segments of a path:
    empty segments and [.] are dropped, [..] removes the segment before it,
    or is kept when there is none (or another [..]) and the path may climb
    above its start.  [res] holds the segments kept so far, last first. *)
Fixpoint resolve (allowAboveRoot : bool) (segs res : list string) : list string :=
  match segs with
  | [] => rev res
  | seg :: segs' =>
      if String.eqb seg EmptyString || String.eqb seg "." then
        resolve allowAboveRoot segs' res
      else if String.eqb seg ".." then
        match res with
        | top :: res' =>
            if String.eqb top ".."
            then resolve allowAboveRoot segs'
                         (if allowAboveRoot then seg :: res else res)
            else resolve allowAboveRoot segs' res'
        | [] =>
            resolve allowAboveRoot segs'
                    (if allowAboveRoot then [seg] else [])
        end
      else resolve allowAboveRoot segs' (seg :: res)
  end.

(** [path.posix.normalize(p)] *)
Definition normalize (p : string) : string :=
  if negb (truthy p) then "."
  else
    let isAbsolute := starts_with_slash p in
    let trailingSeparator := ends_with_slash p in
    let q := String.concat "/" (resolve (negb isAbsolute) (split p "/"%char) []) in
    if negb (truthy q) then
      if isAbsolute then "/" else if trailingSeparator then "./" else "."
    else
      let q := if trailingSeparator then q +:+ "/" else q in
      if isAbsolute then "/" +:+ q else q.

(** [path.join(a, b)] on a POSIX system: the non-empty arguments joined by
    a slash, then normalised. *)
Definition join (a b : string) : string :=
  match truthy a, truthy b with
  | false, false => "."
  | true, false => normalize a
  | false, true => normalize b
  | true, true => normalize (a +:+ "/" +:+ b)
  end.

End JsPath.

(** ** Data model *)

(** One day of the calendar, as the GraphQL query selects it. *)
Record Day : Type := mkDay {
  date : string;
  contributionCount : Z;
  weekday : Z
}.

(** A week; [contributionDays] may be missing ([week.contributionDays ?? []]). *)
Record Week : Type := mkWeek {
  contributionDays : option (list Day)
}.

(** The calendar; the earlier revision's query does not ask for
    [totalContributions], which is then [undefined]. *)
Record Calendar : Type := mkCalendar {
  totalContributions : option Z;
  weeks : list Week
}.

(** ** Constants shared by the two revisions *)

Definition USERNAME : string := "fiona-cai".
Definition CELL : Z := 11.
Definition GAP : Z := 2.
Definition WEEKS : Z := 53.
Definition DAYS : Z := 7.
Definition PAD_X : Z := 10.
Definition PAD_Y : Z := 10.

(** [svgEscape] *)
Definition svgEscape (s : string) : string :=
  replaceAll
    (replaceAll
       (replaceAll
          (replaceAll s "&"%char "&amp;")
          "<"%char "&lt;")
       ">"%char "&gt;")
    "034"%char "&quot;".

(** ** Template literals *)

(** The pieces of a template literal, joined. *)
Definition cat (parts : list string) : string :=
  foldr String.append EmptyString parts.

(** The fixed text of the templates is written with an apostrophe for the
    double quote and a tilde for the line break; neither character occurs in
    the script's templates.  [lit] gives the text as the script has it. *)
Definition lit (s : string) : string :=
  replaceAll (replaceAll s "'"%char (String "034"%char EmptyString))
             "~"%char (String "010"%char EmptyString).

(** A possibly undefined string inside a template literal. *)
Definition show (o : option string) : string := default "undefined" o.

(** [arr[i]] for a number [i]: undefined outside the array. *)
Definition index {A : Type} (arr : list A) (i : Z) : option A :=
  if i <? 0 then None else arr !! Z.to_nat i.

(** The count followed by the noun, which is singular for exactly 1; the
    phrase opens both tooltip styles and the summary line. *)
Definition contributions (n : Z) : string :=
  cat [toString n; " contribution"; if n =? 1 then EmptyString else "s"].

(** ** Errors and results *)

Inductive Error : Type :=
| MissingToken                         (* new Error("Missing GH_TOKEN env var.") *)
| ApiError (status : Z) (body : string) (* new Error(`GitHub API error: ...`) *)
| GraphQLErrors (errors : list string) (* new Error(`GraphQL errors: ...`) *)
| TypeError                            (* property read on undefined or null *)
| SyntaxError                          (* res.json() on a body that is not JSON *)
| FetchError                           (* fetch rejected *)
| CwdError                             (* process.cwd() failed *)
| MkdirError                           (* fs.mkdirSync failed *)
| WriteError.                          (* fs.writeFileSync failed *)

Inductive result (A : Type) : Type :=
| Ok (a : A)
| Throw (e : Error).
Arguments Ok {A} a.
Arguments Throw {A} e.

Definition rbind {A B} (r : result A) (k : A -> result B) : result B :=
  match r with
  | Ok a => k a
  | Throw e => Throw e
  end.

(** [for (const a of l) s = body(s, a)], stopping at the first throw. *)
Fixpoint for_each {A S : Type} (l : list A) (body : S -> A -> result S) (s : S)
  : result S :=
  match l with
  | [] => Ok s
  | a :: l' => rbind (body s a) (for_each l' body)
  end.

(** ** Normalising the week list (the same in both revisions) *)

Definition emptyWeek : Week := mkWeek (Some []).

(** [while (paddedWeeks.length < WEEKS) paddedWeeks.unshift(emptyWeek)].
    The recursion is on the loop's variant [WEEKS - length]; the guard is
    tested at every turn. *)
Fixpoint unshift_while (variant : nat) (ws : list Week) : list Week :=
  match variant with
  | O => ws
  | S v =>
      if Z.of_nat (length ws) <? WEEKS
      then unshift_while v (emptyWeek :: ws)
      else ws
  end.

(** [paddedWeeks] after the [while] and the [splice(0, length - WEEKS)]. *)
Definition paddedWeeks (weeks : list Week) : list Week :=
  let padded := unshift_while (Z.to_nat (WEEKS - Z.of_nat (length weeks))) weeks in
  if Z.of_nat (length padded) >? WEEKS
  then drop (Z.to_nat (Z.of_nat (length padded) - WEEKS)) padded
  else padded.

(** [paddedWeeks[x]] followed by [week.contributionDays ?? []]: reading the
    property of an undefined week throws. *)
Definition week_days (padded : list Week) (x : Z) : result (list Day) :=
  match padded !! Z.to_nat x with
  | None => Throw TypeError
  | Some week => Ok (default [] (contributionDays week))
  end.

(** [const byWeekday = new Map(); for (const d of days) byWeekday.set(d.weekday, d)] *)
Definition byWeekday (days : list Day) : gmap Z Day :=
  foldl (fun m d => <[weekday d := d]> m) ∅ days.

(** [`<title>${svgEscape(title)}</title>`] when [title] is truthy, else the
    empty string. *)
Definition title_element (title : string) : string :=
  if truthy title
  then cat ["<title>"; svgEscape title; "</title>"]
  else EmptyString.

(** The [rect] element appended to [rects] for one cell. *)
Definition rect_element (px py rx : Z) (fill : option string) (title : string)
  : string :=
  cat [lit "~  <rect x='"; toString px; lit "' y='"; toString py;
       lit "' width='"; toString CELL; lit "' height='"; toString CELL;
       lit "' rx='"; toString rx; lit "' ry='"; toString rx;
       lit "' fill='"; show fill; lit "'>~    "; title_element title;
       lit "~  </rect>"].

(** ** The later revision: five colours, header, legend, month tooltips *)

Module Rev1.

Definition PALETTE : list string :=
  ["#97BAA9"; "#ABCCA3"; "#C8D9AA"; "#F3DEB4"; "#FBD2C6"].

Definition HEADER_HEIGHT : Z := 24.
Definition LEGEND_HEIGHT : Z := 28.

Definition levelFromCount (count : Z) : Z :=
  if count =? 0 then 0
  else if count <=? 2 then 1
  else if count <=? 5 then 2
  else if count <=? 9 then 3
  else 4.

Definition MONTHS : list string :=
  ["January"; "February"; "March"; "April"; "May"; "June"; "July";
   "August"; "September"; "October"; "November"; "December"].

Definition ordinal (n : option num) : string :=
  let s := String_ n in
  if endsWith s "11" || endsWith s "12" || endsWith s "13" then s +:+ "th"
  else if endsWith s "1" then s +:+ "st"
  else if endsWith s "2" then s +:+ "nd"
  else if endsWith s "3" then s +:+ "rd"
  else s +:+ "th".

Definition formatTooltipDate (dateStr : string) (count : Z) : string :=
  if negb (truthy dateStr) then EmptyString
  else
    let parts := map Number (split dateStr "-"%char) in
    let m := parts !! 1%nat in
    let d := parts !! 2%nat in
    let month :=
      match minus m 1 with
      | Int k => index MONTHS k
      | NaN => None
      end in
    let day := ordinal d in
    cat [contributions count; " on "; show month; " "; day].

Definition width : Z := PAD_X * 2 + WEEKS * CELL + (WEEKS - 1) * GAP.
Definition gridHeight : Z := PAD_Y * 2 + DAYS * CELL + (DAYS - 1) * GAP.
Definition height : Z := HEADER_HEIGHT + gridHeight + LEGEND_HEIGHT.
Definition gridOffsetY : Z := HEADER_HEIGHT + PAD_Y.
Definition textColor : string := "#8b949e".
Definition bg : string := "transparent".

(** The body of the inner loop: the text appended to [rects] for the cell
    in column [x], row [y]. *)
Definition cell (x y : Z) (m : gmap Z Day) : string :=
  let day := m !! y in
  let count := default 0 (contributionCount <$> day) in
  let date := default EmptyString (date <$> day) in
  let level := levelFromCount count in
  let fill := index PALETTE level in
  let rx := 2 in
  let px := PAD_X + x * (CELL + GAP) in
  let py := gridOffsetY + y * (CELL + GAP) in
  let title := if truthy date then formatTooltipDate date count else EmptyString in
  rect_element px py rx fill title.

(** The body of the outer loop: the seven cells of column [x]. *)
Definition column (padded : list Week) (rects : string) (x : Z) : result string :=
  rbind (week_days padded x) (fun days =>
  let m := byWeekday days in
  Ok (foldl (fun rects y => rects +:+ cell x y m) rects (seqZ 0 DAYS))).

Definition legendY : Z := height - 14.
Definition legendSwatchSize : Z := 10.
Definition legendGap : Z := 2.
Definition legendStartX : Z := width - 120.

Definition swatch (i : Z) : string :=
  let lx := legendStartX + i * (legendSwatchSize + legendGap) in
  cat [lit "~  <rect x='"; toString lx;
       lit "' y='"; toString (legendY - legendSwatchSize + 2);
       lit "' width='"; toString legendSwatchSize;
       lit "' height='"; toString legendSwatchSize;
       lit "' rx='2' ry='2' fill='"; show (index PALETTE i); lit "'/>"].

Definition legendSwatches : string :=
  foldl (fun acc i => acc +:+ swatch i) EmptyString
        (seqZ 0 (Z.of_nat (length PALETTE))).

(** The document up to and including the [viewBox] attribute. *)
Definition svg_open : string :=
  cat [lit "<?xml version='1.0' encoding='UTF-8'?>~<svg width='";
       toString width; lit "' height='"; toString height;
       lit "'~     viewBox='0 0 "; toString width; " "; toString height;
       lit "'"].

Definition renderSVG (calendar : Calendar) : result string :=
  let total := default 0 (totalContributions calendar) in
  let padded := paddedWeeks (weeks calendar) in
  rbind (for_each (seqZ 0 WEEKS) (column padded) EmptyString) (fun rects =>
  let summaryText := cat [contributions total; " in the last year"] in
  Ok (cat
    [svg_open;
     lit "~     xmlns='http://www.w3.org/2000/svg'~     role='img'~     aria-label='GitHub contributions graph for ";
     USERNAME;
     lit "'>~  <rect width='100%' height='100%' fill='"; bg;
     lit "' />~  <text x='0' y='16' font-family='system-ui, -apple-system, sans-serif' font-size='12' fill='";
     textColor; lit "'>"; svgEscape summaryText;
     lit "</text>~  <g>~    "; rects;
     lit "~  </g>~  <text x='"; toString (legendStartX - 32);
     lit "' y='"; toString legendY;
     lit "' font-family='system-ui, -apple-system, sans-serif' font-size='9' fill='";
     textColor; lit "'>Less</text>~  "; legendSwatches;
     lit "~  <text x='";
     toString (legendStartX + Z.of_nat (length PALETTE) * (legendSwatchSize + legendGap) + 6);
     lit "' y='"; toString legendY;
     lit "' font-family='system-ui, -apple-system, sans-serif' font-size='9' fill='";
     textColor; lit "'>More</text>~</svg>~"])).

End Rev1.

(** ** The earlier revision: four colours, date-prefixed tooltips *)

Module Rev2.

Definition PALETTE : list string :=
  ["#EFCAD1"; "#E9B8C1"; "#C0D9BA"; "#ABCCA3"].

Definition levelFromCount (count : Z) : Z :=
  if count =? 0 then 0
  else if count <=? 2 then 1
  else if count <=? 6 then 2
  else 3.

Definition width : Z := PAD_X * 2 + WEEKS * CELL + (WEEKS - 1) * GAP.
Definition height : Z := PAD_Y * 2 + DAYS * CELL + (DAYS - 1) * GAP.
Definition bg : string := "transparent".

Definition cell (x y : Z) (m : gmap Z Day) : string :=
  let day := m !! y in
  let count := default 0 (contributionCount <$> day) in
  let date := default EmptyString (date <$> day) in
  let level := levelFromCount count in
  let fill := index PALETTE level in
  let rx := 2 in
  let px := PAD_X + x * (CELL + GAP) in
  let py := PAD_Y + y * (CELL + GAP) in
  let title :=
    if truthy date
    then cat [date; ": "; contributions count]
    else EmptyString in
  rect_element px py rx fill title.

Definition column (padded : list Week) (rects : string) (x : Z) : result string :=
  rbind (week_days padded x) (fun days =>
  let m := byWeekday days in
  Ok (foldl (fun rects y => rects +:+ cell x y m) rects (seqZ 0 DAYS))).

Definition svg_open : string :=
  cat [lit "<?xml version='1.0' encoding='UTF-8'?>~<svg width='";
       toString width; lit "' height='"; toString height;
       lit "'~     viewBox='0 0 "; toString width; " "; toString height;
       lit "'"].

Definition renderSVG (calendar : Calendar) : result string :=
  let padded := paddedWeeks (weeks calendar) in
  rbind (for_each (seqZ 0 WEEKS) (column padded) EmptyString) (fun rects =>
  Ok (cat
    [svg_open;
     lit "~     xmlns='http://www.w3.org/2000/svg'~     role='img'~     aria-label='GitHub contributions graph for ";
     USERNAME;
     lit "'>~  <rect width='100%' height='100%' fill='"; bg;
     lit "' />~  <g>~    "; rects;
     lit "~  </g>~</svg>~"])).

End Rev2.

(** ** The program around the renderer (the same in both revisions) *)

(** The request [fetchCalendar] posts. *)
Record Request : Type := mkRequest {
  url : string;
  method : string;
  authorization : string;
  login : string
}.

(** The parsed response body: [errors] is the API's error list (empty when
    the field is absent), [calendar] is
    [data.user.contributionsCollection.contributionCalendar] when that path
    exists. *)
Record Body : Type := mkBody {
  errors : list string;
  calendar : option Calendar
}.

Record Response : Type := mkResponse {
  ok : bool;
  status : Z;
  text : string;
  json : option Body
}.

(** How a call of [fs.writeFileSync] ends. *)
Inductive WriteOutcome : Type :=
| Written                  (* the file holds the data *)
| Refused                  (* it throws and the file is as before *)
| Broken (residue : string).  (* it throws after opening the file, which
                                 now holds [residue] *)

(** What the process can see and change.  [cwd] is the working directory
    ([None]: [process.cwd()] throws); [network] answers a request ([None]:
    the fetch is rejected); [fs_mkdir] tells whether
    [fs.mkdirSync(dir, {recursive: true})] succeeds and [fs_write] how
    [fs.writeFileSync(file, data)] ends; [requests] records every request
    that was sent, latest first; [files] holds the contents of the regular
    files. *)
Record World : Type := mkWorld {
  GH_TOKEN : option string;
  cwd : option string;
  network : Request -> option Response;
  fs_mkdir : string -> bool;
  fs_write : string -> string -> WriteOutcome;
  requests : list Request;
  files : gmap string string;
  stdout : list string;
  stderr : list Error;
  exitCode : option Z
}.

(** Computations that read and change the world and may throw. *)
Definition IO (A : Type) : Type := World -> World * result A.

Definition ret {A} (a : A) : IO A := fun w => (w, Ok a).
Definition throw {A} (e : Error) : IO A := fun w => (w, Throw e).
Definition bind {A B} (m : IO A) (k : A -> IO B) : IO B :=
  fun w =>
    match m w with
    | (w', Ok a) => k a w'
    | (w', Throw e) => (w', Throw e)
    end.
Definition lift {A} (r : result A) : IO A := fun w => (w, r).

Notation "'let*' x ':=' m 'in' k" := (bind m (fun x => k))
  (at level 10, x name, m at level 100, k at level 200).

(** [fetch(url, options)]: the request leaves the process, then the
    network answers or the promise is rejected. *)
Definition fetch (req : Request) : IO Response :=
  fun w =>
    let w' := mkWorld (GH_TOKEN w) (cwd w) (network w) (fs_mkdir w) (fs_write w)
                      (req :: requests w)
                      (files w) (stdout w) (stderr w) (exitCode w) in
    match network w req with
    | Some res => (w', Ok res)
    | None => (w', Throw FetchError)
    end.

(** [fetchCalendar].  When only the last property of the path to the
    calendar is absent the script returns [undefined] and [renderSVG], called
    next, throws a [TypeError] on reading [weeks]; here that [TypeError] is
    thrown at the end of [fetchCalendar], with the same outcome for the
    run. *)
Definition fetchCalendar (token : string) : IO Calendar :=
  let* res := fetch (mkRequest "https://api.github.com/graphql" "POST"
                               ("Bearer " +:+ token) USERNAME) in
  if negb (ok res) then throw (ApiError (status res) (text res))
  else
    match json res with
    | None => throw SyntaxError
    | Some body =>
        match errors body with
        | _ :: _ => throw (GraphQLErrors (errors body))
        | [] =>
            match calendar body with
            | None => throw TypeError
            | Some cal => ret cal
            end
        end
    end.

(** [process.cwd()] *)
Definition process_cwd : IO string :=
  fun w =>
    match cwd w with
    | Some dir => (w, Ok dir)
    | None => (w, Throw CwdError)
    end.

(** [fs.mkdirSync(dir, {recursive: true})]: no regular file changes. *)
Definition mkdirSync (dir : string) : IO unit :=
  fun w => if fs_mkdir w dir then (w, Ok tt) else (w, Throw MkdirError).

(** The world with the file [file] holding [data]. *)
Definition with_file (file data : string) (w : World) : World :=
  mkWorld (GH_TOKEN w) (cwd w) (network w) (fs_mkdir w) (fs_write w) (requests w)
          (<[file := data]> (files w)) (stdout w) (stderr w) (exitCode w).

(** [fs.writeFileSync(file, data, "utf8")] *)
Definition writeFileSync (file data : string) : IO unit :=
  fun w =>
    match fs_write w file data with
    | Written => (with_file file data w, Ok tt)
    | Refused => (w, Throw WriteError)
    | Broken residue => (with_file file residue w, Throw WriteError)
    end.

Definition console_log (line : string) : IO unit :=
  fun w =>
    (mkWorld (GH_TOKEN w) (cwd w) (network w) (fs_mkdir w) (fs_write w)
             (requests w) (files w) (line :: stdout w) (stderr w) (exitCode w),
     Ok tt).

Section Main.

(** The renderer of the revision at hand. *)
Variable renderSVG : Calendar -> result string.

(** [!token] holds for an unset variable and for the empty string. *)
Definition main : IO unit :=
  fun w =>
    match GH_TOKEN w with
    | None => throw MissingToken w
    | Some token =>
        if negb (truthy token) then throw MissingToken w
        else
          (let* calendar := fetchCalendar token in
           let* svg := lift (renderSVG calendar) in
           let* dir := process_cwd in
           let outDir := JsPath.join dir "assets" in
           let outFile := JsPath.join outDir "contributions.svg" in
           let* _ := mkdirSync outDir in
           let* _ := writeFileSync outFile svg in
           console_log ("Wrote " +:+ outFile)) w
    end.

(** [main().catch(err => { console.error(err); process.exit(1); })]: the
    world when the process has ended. *)
Definition run (w : World) : World :=
  match main w with
  | (w', Ok _) =>
      mkWorld (GH_TOKEN w') (cwd w') (network w') (fs_mkdir w') (fs_write w')
              (requests w') (files w') (stdout w') (stderr w') (Some 0)
  | (w', Throw err) =>
      mkWorld (GH_TOKEN w') (cwd w') (network w') (fs_mkdir w') (fs_write w')
              (requests w') (files w') (stdout w') (err :: stderr w') (Some 1)
  end.

End Main.

(** * Vocabulary of the properties *)

(** A step function [level] cuts the non-negative integers into [n]
    contiguous buckets, the first being exactly the count 0. *)
Definition partitions (level : Z -> Z) (n : Z) : Prop :=
  (forall c, 0 <= c -> (level c = 0 <-> c = 0)) /\
  (forall c c', 0 <= c -> c <= c' -> level c <= level c') /\
  (forall c, 0 <= c -> 0 <= level c <= n - 1) /\
  (forall l, 0 <= l <= n - 1 -> exists c, 0 <= c /\ level c = l) /\
  (forall a b c, 0 <= a -> a <= b -> b <= c -> level a = level c -> level b = level a).

(** The body of the loop over the columns, for any way [cells] of writing
    the cells of one column; both revisions' [column] have this shape. *)
Definition column_of (cells : Z -> gmap Z Day -> string -> string)
    (padded : list Week) (rects : string) (x : Z) : result string :=
  rbind (week_days padded x) (fun days => Ok (cells x (byWeekday days) rects)).

(** A world in which [GH_TOKEN] is not set and nothing has happened yet. *)
Definition world_without_token : World :=
  mkWorld None (Some "/repo") (fun _ => None) (fun _ => true)
          (fun _ _ => Written) [] ∅ [] [] None.

(** What [svgEscape] makes of one character. *)
Definition escape_char (a : ascii) : string :=
  if Ascii.eqb a "&" then "&amp;"
  else if Ascii.eqb a "<" then "&lt;"
  else if Ascii.eqb a ">" then "&gt;"
  else if Ascii.eqb a "034" then "&quot;"
  else String a EmptyString.

(** The string with each character escaped on its own. *)
Fixpoint escape_each (s : string) : string :=
  match s with
  | EmptyString => EmptyString
  | String a s' => escape_char a +:+ escape_each s'
  end.

(** The text after an ampersand completes one of the four entities. *)
Definition entity_follows (post : string) : Prop :=
  exists rest,
    post = "amp;" +:+ rest \/ post = "lt;" +:+ rest \/
    post = "gt;" +:+ rest \/ post = "quot;" +:+ rest.

(** The character [c], followed by [post], is admissible in escaped text:
    it is no raw reserved character, and an ampersand starts an entity. *)
Definition escaped_at (c : ascii) (post : string) : Prop :=
  (c <> "<"%char /\ c <> ">"%char /\ c <> "034"%char) /\
  (c = "&"%char -> entity_follows post).

(** The English suffix of a non-negative number, by arithmetic: the teens
    11, 12 and 13 of every hundred take [th], otherwise the last digit
    decides. *)
Definition english_suffix (n : Z) : string :=
  if (n mod 100 =? 11) || (n mod 100 =? 12) || (n mod 100 =? 13) then "th"
  else if n mod 10 =? 1 then "st"
  else if n mod 10 =? 2 then "nd"
  else if n mod 10 =? 3 then "rd"
  else "th".

(** The map the renderer builds for a week. *)
Definition week_map (w : Week) : gmap Z Day :=
  byWeekday (default [] (contributionDays w)).

Definition monday_last : Day := mkDay "2024-03-04" 7 1.
Definition tuesday : Day := mkDay "2024-03-05" 3 2.

(** A [rect] element whose content is the line break and indentation of the
    template only: it has no [title] child. *)
Definition rect_without_title (px py rx : Z) (fill : option string) : string :=
  cat [lit "~  <rect x='"; toString px; lit "' y='"; toString py;
       lit "' width='"; toString CELL; lit "' height='"; toString CELL;
       lit "' rx='"; toString rx; lit "' ry='"; toString rx;
       lit "' fill='"; show fill; lit "'>~    ~  </rect>"].

(** The text [t] occurs in the result [r] of a fallible computation. *)
Definition occurs_in (r : result string) (t : string) : bool :=
  match r with
  | Ok s => includes s t
  | Throw _ => false
  end.

(** The week list of the scenario: one week, one day. *)
Definition single_day_weeks : list Week :=
  [mkWeek (Some [mkDay "2024-03-05" 3 2])].

(** The cell of that day as the later revision writes it. *)
Definition Rev1_single_day_rect : string :=
  lit "~  <rect x='686' y='60' width='11' height='11' rx='2' ry='2' fill='#C8D9AA'>~    <title>3 contributions on March 5th</title>~  </rect>".

(** The cell of that day as the earlier revision writes it. *)
Definition Rev2_single_day_rect : string :=
  lit "~  <rect x='686' y='36' width='11' height='11' rx='2' ry='2' fill='#C0D9BA'>~    <title>2024-03-05: 3 contributions</title>~  </rect>".

(** The four characters [svgEscape] replaces. *)
Definition reserved (a : ascii) : bool :=
  Ascii.eqb a "&" || Ascii.eqb a "<" || Ascii.eqb a ">" || Ascii.eqb a "034".

(** Some character of the string is one of the four. *)
Fixpoint has_reserved (s : string) : bool :=
  match s with
  | EmptyString => false
  | String a s' => reserved a || has_reserved s'
  end.

(** The one request [fetchCalendar] sends for a token. *)
Definition graphql_request (token : string) : Request :=
  mkRequest "https://api.github.com/graphql" "POST" ("Bearer " +:+ token)
            USERNAME.

(** The directory [main] creates and the path it writes to, for the working
    directory [dir]. *)
Definition outDir (dir : string) : string := JsPath.join dir "assets".

Definition outFile (dir : string) : string :=
  JsPath.join (outDir dir) "contributions.svg".

(** A world whose token is set, whose network answers every request with
    the given response, whose working directory is [dir] and whose file
    system accepts every directory and every write. *)
Definition world_answering_in (dir : string) (res : Response) : World :=
  mkWorld (Some "t0k") (Some dir) (fun _ => Some res) (fun _ => true)
          (fun _ _ => Written) [] ∅ [] [] None.

Definition world_answering (res : Response) : World :=
  world_answering_in "/repo" res.


(** A successful response carrying a calendar of one day. *)
Definition good_response : Response :=
  mkResponse true 200 EmptyString
             (Some (mkBody [] (Some (mkCalendar (Some 3)
                                       [mkWeek (Some [mkDay "2024-03-05" 3 2])])))).

(** A failed response whose body also lists an API error. *)
Definition bad_response : Response :=
  mkResponse false 401 "Bad credentials"
             (Some (mkBody ["Bad credentials"] None)).

(** The seven cells of column [x], top to bottom, for a way [cell] of
    writing one cell. *)
Definition column_cells (cell : Z -> Z -> gmap Z Day -> string)
    (x : Z) (m : gmap Z Day) : string :=
  cat ((fun y => cell x y m) <$> seqZ 0 DAYS).

(** The cells of a week list, column after column, the week at index [i]
    in column [i]. *)
Definition grid (cell : Z -> Z -> gmap Z Day -> string)
    (padded : list Week) : string :=
  cat (imap (fun i w => column_cells cell (Z.of_nat i) (week_map w)) padded).

(** What the renderer reads of a week: the day, if any, of each of the
    rows 0 to 6. *)
Definition week_rows (w : Week) : list (option Day) :=
  (fun y => week_map w !! y) <$> seqZ 0 DAYS.

(** A week without days: its day list is missing or empty. *)
Definition dayless (w : Week) : Prop := default [] (contributionDays w) = [].

(** The character occurs in the string. *)
Fixpoint has_char (c : ascii) (s : string) : bool :=
  match s with
  | EmptyString => false
  | String a s' => Ascii.eqb a c || has_char c s'
  end.

(** The later revision's document up to its first [text] element. *)
Definition Rev1_before_text : string :=
  lit "<?xml version='1.0' encoding='UTF-8'?>~<svg width='707' height='161'~     viewBox='0 0 707 161'~     xmlns='http://www.w3.org/2000/svg'~     role='img'~     aria-label='GitHub contributions graph for fiona-cai'>~  <rect width='100%' height='100%' fill='transparent' />~  ".

(** The opening tag of that element. *)
Definition Rev1_text_open : string :=
  lit "<text x='0' y='16' font-family='system-ui, -apple-system, sans-serif' font-size='12' fill='#8b949e'>".

(** * Properties *)

(** ** Quantisation *)

Ltac level_cases :=
  repeat match goal with
         | |- context [?a =? ?b] => destruct (Z.eqb_spec a b)
         | |- context [?a <=? ?b] => destruct (Z.leb_spec a b)
         | H : context [?a =? ?b] |- _ => destruct (Z.eqb_spec a b)
         | H : context [?a <=? ?b] |- _ => destruct (Z.leb_spec a b)
         end.

Lemma Rev1_levelFromCount_partitions :
  partitions Rev1.levelFromCount (Z.of_nat (length Rev1.PALETTE)).
Proof.
  unfold partitions, Rev1.levelFromCount. simpl length.
  split; [|split; [|split; [|split]]].
  - intros c Hc. split; intros H; level_cases; lia.
  - intros c c' Hc Hcc'. level_cases; lia.
  - intros c Hc. level_cases; lia.
  - intros l Hl.
    assert (l = 0 \/ l = 1 \/ l = 2 \/ l = 3 \/ l = 4) as Hc by lia.
    destruct Hc as [-> | [-> | [-> | [-> | ->]]]];
      [exists 0 | exists 1 | exists 3 | exists 6 | exists 10];
      split; (lia || reflexivity).
  - intros a b c Ha Hab Hbc H. level_cases; lia.
Qed.

Lemma Rev2_levelFromCount_partitions :
  partitions Rev2.levelFromCount (Z.of_nat (length Rev2.PALETTE)).
Proof.
  unfold partitions, Rev2.levelFromCount. simpl length.
  split; [|split; [|split; [|split]]].
  - intros c Hc. split; intros H; level_cases; lia.
  - intros c c' Hc Hcc'. level_cases; lia.
  - intros c Hc. level_cases; lia.
  - intros l Hl.
    assert (l = 0 \/ l = 1 \/ l = 2 \/ l = 3) as Hc by lia.
    destruct Hc as [-> | [-> | [-> | ->]]];
      [exists 0 | exists 1 | exists 3 | exists 7];
      split; (lia || reflexivity).
  - intros a b c Ha Hab Hbc H. level_cases; lia.
Qed.

(** C1. In both revisions [levelFromCount] cuts the non-negative integers
    into [PALETTE.length] contiguous buckets: the level is 0 exactly for the
    count 0, it never decreases as the count grows, it stays within
    [0, PALETTE.length - 1], and every level of that range is the level of
    some count. *)
Theorem levelFromCount_partitions :
  partitions Rev1.levelFromCount (Z.of_nat (length Rev1.PALETTE)) /\
  partitions Rev2.levelFromCount (Z.of_nat (length Rev2.PALETTE)).
Proof.
  split.
  - exact Rev1_levelFromCount_partitions.
  - exact Rev2_levelFromCount_partitions.
Qed.

(** The counts 0, 2, 5, 9 and 10 sit in the five buckets of the later
    revision; 6 moves up one bucket only in that revision. *)
Lemma levelFromCount_partitions_witness :
  map Rev1.levelFromCount [0; 2; 5; 9; 10] = [0; 1; 2; 3; 4] /\
  Rev1.levelFromCount 6 = 3 /\ Rev2.levelFromCount 6 = 2 /\
  Rev1.levelFromCount 2 <= Rev1.levelFromCount 7 /\
  Rev2.levelFromCount 2 <= Rev2.levelFromCount 7.
Proof.
  repeat split; try reflexivity.
  - apply (proj1 (proj2 (proj1 levelFromCount_partitions)) 2 7); lia.
  - apply (proj1 (proj2 (proj2 levelFromCount_partitions)) 2 7); lia.
Defined.

(** ** Normalisation of the week list *)

Lemma replicate_snoc_app {A} (n : nat) (x : A) (l : list A) :
  replicate n x ++ x :: l = replicate (S n) x ++ l.
Proof.
  induction n as [|n IH]; simpl; [reflexivity|].
  f_equal. exact IH.
Qed.

Lemma unshift_while_spec (v : nat) (ws : list Week) :
  Z.of_nat v = WEEKS - Z.of_nat (length ws) ->
  unshift_while v ws = replicate v emptyWeek ++ ws.
Proof.
  revert ws. induction v as [|v IH]; intros ws Hv; simpl; [reflexivity|].
  destruct (Z.ltb_spec (Z.of_nat (length ws)) WEEKS) as [_|Hge]; [|lia].
  rewrite IH by (simpl length; lia).
  apply replicate_snoc_app.
Qed.

(** The week list after normalisation, in one formula. *)
Lemma paddedWeeks_eq (ws : list Week) :
  paddedWeeks ws =
  replicate (53 - length ws) emptyWeek ++ drop (length ws - 53) ws.
Proof.
  unfold paddedWeeks.
  destruct (Nat.le_gt_cases (length ws) 53) as [Hle|Hgt].
  - rewrite unshift_while_spec by (unfold WEEKS; lia).
    replace (Z.to_nat (WEEKS - Z.of_nat (length ws))) with (53 - length ws)%nat
      by (unfold WEEKS; lia).
    replace (length ws - 53)%nat with 0%nat by lia. rewrite drop_0.
    destruct (Z.gtb_spec (Z.of_nat (length (replicate (53 - length ws) emptyWeek ++ ws))) WEEKS)
      as [Hbad|_]; [|reflexivity].
    rewrite length_app, length_replicate in Hbad. unfold WEEKS in Hbad. lia.
  - replace (Z.to_nat (WEEKS - Z.of_nat (length ws))) with 0%nat
      by (unfold WEEKS; lia).
    simpl unshift_while.
    destruct (Z.gtb_spec (Z.of_nat (length ws)) WEEKS) as [_|Hbad];
      [|unfold WEEKS in Hbad; lia].
    replace (53 - length ws)%nat with 0%nat by lia. simpl.
    f_equal. unfold WEEKS. lia.
Qed.

Lemma paddedWeeks_length (ws : list Week) : length (paddedWeeks ws) = 53%nat.
Proof.
  rewrite paddedWeeks_eq, length_app, length_replicate, length_drop. lia.
Qed.

(** C2. Whatever the length L of the input week list (so in particular for
    0 <= L <= 200), the normalised list has exactly 53 weeks; for L < 53 it
    is 53 - L empty weeks followed by the input, and for L > 53 it is the
    input without its first L - 53 weeks, that is its last 53 weeks. *)
Theorem paddedWeeks_normalises (ws : list Week) :
  length (paddedWeeks ws) = 53%nat /\
  ((length ws < 53)%nat ->
     paddedWeeks ws = replicate (53 - length ws) emptyWeek ++ ws /\
     contributionDays emptyWeek = Some []) /\
  ((53 < length ws)%nat ->
     paddedWeeks ws = drop (length ws - 53) ws /\
     forall front back, ws = front ++ back -> length back = 53%nat ->
                        paddedWeeks ws = back).
Proof.
  split; [apply paddedWeeks_length|]. split.
  - intros Hlt. split; [|reflexivity].
    rewrite paddedWeeks_eq.
    replace (length ws - 53)%nat with 0%nat by lia. now rewrite drop_0.
  - intros Hgt.
    assert (paddedWeeks ws = drop (length ws - 53) ws) as Heq.
    { rewrite paddedWeeks_eq.
      replace (53 - length ws)%nat with 0%nat by lia. reflexivity. }
    split; [exact Heq|].
    intros front back -> Hback. rewrite Heq.
    rewrite length_app, Hback.
    replace (length front + 53 - 53)%nat with (length front) by lia.
    apply drop_app_length.
Qed.

(** A list of 52 weeks gets one empty week in front; a list of 54 weeks
    loses its first. *)
Lemma paddedWeeks_normalises_witness :
  paddedWeeks (replicate 52 (mkWeek None)) =
    emptyWeek :: replicate 52 (mkWeek None) /\
  paddedWeeks (emptyWeek :: replicate 53 (mkWeek None)) =
    replicate 53 (mkWeek None).
Proof.
  split.
  - apply (proj1 (proj2 (paddedWeeks_normalises (replicate 52 (mkWeek None))))).
    simpl. lia.
  - apply (proj2 (proj2 (paddedWeeks_normalises
                           (emptyWeek :: replicate 53 (mkWeek None)))));
      simpl; lia.
Defined.

(** ** The renderer returns *)

Lemma week_days_in_range (padded : list Week) (x : Z) :
  0 <= x < Z.of_nat (length padded) ->
  exists days, week_days padded x = Ok days.
Proof.
  intros Hx. unfold week_days.
  destruct (padded !! Z.to_nat x) as [week|] eqn:Hweek; [eauto|].
  apply lookup_ge_None in Hweek. lia.
Qed.

Section Columns.

(** The loop over the columns never throws when every index it visits
    lies within the week list; stated for any loop body of the shape both
    revisions have. *)
Variable cells : Z -> gmap Z Day -> string -> string.

Lemma for_each_columns_ok (padded : list Week) (xs : list Z) (rects : string) :
  Forall (fun x => 0 <= x < Z.of_nat (length padded)) xs ->
  exists out, for_each xs (column_of cells padded) rects = Ok out.
Proof.
  revert rects. induction xs as [|x xs IH]; intros rects Hxs; simpl.
  - eauto.
  - inversion Hxs as [|? ? Hx Hrest]; subst.
    unfold column_of at 1.
    destruct (week_days_in_range padded x Hx) as [days ->]. simpl.
    apply IH, Hrest.
Qed.

End Columns.

Lemma seqZ_WEEKS_in_range (ws : list Week) :
  Forall (fun x => 0 <= x < Z.of_nat (length (paddedWeeks ws))) (seqZ 0 WEEKS).
Proof.
  rewrite paddedWeeks_length. apply Forall_forall. intros x Hx.
  apply elem_of_seqZ in Hx. unfold WEEKS in Hx. lia.
Qed.

Lemma Rev1_rects_ok (ws : list Week) :
  exists rects,
    for_each (seqZ 0 WEEKS) (Rev1.column (paddedWeeks ws)) EmptyString = Ok rects.
Proof.
  apply (for_each_columns_ok
           (fun x m rects => foldl (fun rects y => rects +:+ Rev1.cell x y m)
                                   rects (seqZ 0 DAYS))).
  apply seqZ_WEEKS_in_range.
Qed.

Lemma Rev2_rects_ok (ws : list Week) :
  exists rects,
    for_each (seqZ 0 WEEKS) (Rev2.column (paddedWeeks ws)) EmptyString = Ok rects.
Proof.
  apply (for_each_columns_ok
           (fun x m rects => foldl (fun rects y => rects +:+ Rev2.cell x y m)
                                   rects (seqZ 0 DAYS))).
  apply seqZ_WEEKS_in_range.
Qed.

Lemma Rev1_renderSVG_ok (cal : Calendar) : exists svg, Rev1.renderSVG cal = Ok svg.
Proof.
  unfold Rev1.renderSVG.
  destruct (Rev1_rects_ok (weeks cal)) as [rects ->]. simpl. eauto.
Qed.

Lemma Rev2_renderSVG_ok (cal : Calendar) : exists svg, Rev2.renderSVG cal = Ok svg.
Proof.
  unfold Rev2.renderSVG.
  destruct (Rev2_rects_ok (weeks cal)) as [rects ->]. simpl. eauto.
Qed.

(** ** Dimensions *)

Lemma cat_cons (p : string) (ps : list string) : cat (p :: ps) = p +:+ cat ps.
Proof. reflexivity. Qed.

(** C7. The width and height written into the [svg] element and its
    [viewBox] do not depend on the calendar: for every pair of calendars the
    two documents open with the same text up to and including the
    [viewBox], 707 by 161 in the later revision and 707 by 109 in the
    earlier, computed from the layout constants. *)
Theorem renderSVG_dimensions_constant (cal1 cal2 : Calendar) :
  (Rev1.width = 707 /\ Rev1.height = 161 /\
   Rev1.svg_open =
     lit "<?xml version='1.0' encoding='UTF-8'?>~<svg width='707' height='161'~     viewBox='0 0 707 161'" /\
   exists rest1 rest2,
     Rev1.renderSVG cal1 = Ok (Rev1.svg_open +:+ rest1) /\
     Rev1.renderSVG cal2 = Ok (Rev1.svg_open +:+ rest2)) /\
  (Rev2.width = 707 /\ Rev2.height = 109 /\
   Rev2.svg_open =
     lit "<?xml version='1.0' encoding='UTF-8'?>~<svg width='707' height='109'~     viewBox='0 0 707 109'" /\
   exists rest1 rest2,
     Rev2.renderSVG cal1 = Ok (Rev2.svg_open +:+ rest1) /\
     Rev2.renderSVG cal2 = Ok (Rev2.svg_open +:+ rest2)).
Proof.
  split.
  - split; [reflexivity|]. split; [reflexivity|]. split; [reflexivity|].
    unfold Rev1.renderSVG.
    destruct (Rev1_rects_ok (weeks cal1)) as [rects1 ->].
    destruct (Rev1_rects_ok (weeks cal2)) as [rects2 ->].
    cbn [rbind]. rewrite !cat_cons. eauto.
  - split; [reflexivity|]. split; [reflexivity|]. split; [reflexivity|].
    unfold Rev2.renderSVG.
    destruct (Rev2_rects_ok (weeks cal1)) as [rects1 ->].
    destruct (Rev2_rects_ok (weeks cal2)) as [rects2 ->].
    cbn [rbind]. rewrite !cat_cons. eauto.
Qed.

(** ** Missing token *)

(** At least one request is sent once the token is there, so that an
    unchanged request log means [fetchCalendar] was not entered. *)
Lemma fetchCalendar_sends (token : string) (w : World) :
  exists req, requests (fst (fetchCalendar token w)) = req :: requests w.
Proof.
  unfold fetchCalendar, bind, fetch.
  destruct (network w _) as [res|]; simpl; [|eauto].
  destruct (negb (ok res)); simpl; [eauto|].
  destruct (json res) as [body|]; simpl; [|eauto].
  destruct (errors body); simpl; [|eauto].
  destruct (calendar body); simpl; eauto.
Qed.

(** C8. When [GH_TOKEN] is unset (or empty), [main] throws the
    missing-token error with the world untouched, so no request has been
    sent and [fetchCalendar] was not entered, and the top-level handler
    prints the error and ends the process with exit code 1.  This holds
    whichever revision's renderer [main] would have called. *)
Theorem main_missing_token
    (renderSVG : Calendar -> result string) (w : World) :
  GH_TOKEN w = None \/ GH_TOKEN w = Some EmptyString ->
  main renderSVG w = (w, Throw MissingToken) /\
  requests (run renderSVG w) = requests w /\
  files (run renderSVG w) = files w /\
  stderr (run renderSVG w) = MissingToken :: stderr w /\
  exitCode (run renderSVG w) = Some 1.
Proof.
  intros Htoken.
  assert (main renderSVG w = (w, Throw MissingToken)) as Hmain.
  { unfold main. destruct Htoken as [-> | ->]; reflexivity. }
  split; [exact Hmain|].
  unfold run. rewrite Hmain. simpl. repeat split.
Qed.

Lemma main_missing_token_witness :
  requests (run Rev1.renderSVG world_without_token) = [] /\
  exitCode (run Rev1.renderSVG world_without_token) = Some 1 /\
  exitCode (run Rev2.renderSVG world_without_token) = Some 1.
Proof.
  split; [|split].
  - apply (main_missing_token Rev1.renderSVG world_without_token).
    left. reflexivity.
  - apply (main_missing_token Rev1.renderSVG world_without_token).
    left. reflexivity.
  - apply (main_missing_token Rev2.renderSVG world_without_token).
    left. reflexivity.
Defined.

(** ** Escaping *)

(** The four passes of [svgEscape] amount to one pass that escapes each
    character on its own: the ampersand goes first, so that the ampersands
    of the entities written by the later passes are not escaped again. *)
Lemma svgEscape_escape_each (s : string) : svgEscape s = escape_each s.
Proof.
  unfold svgEscape. induction s as [|a s IH]; [reflexivity|].
  cbn [escape_each]. rewrite <- IH. unfold escape_char. cbn [replaceAll].
  destruct (Ascii.eqb a "&") eqn:E1; [reflexivity|]. cbn [replaceAll].
  destruct (Ascii.eqb a "<") eqn:E2; [reflexivity|]. cbn [replaceAll].
  destruct (Ascii.eqb a ">") eqn:E3; [reflexivity|]. cbn [replaceAll].
  destruct (Ascii.eqb a "034") eqn:E4; reflexivity.
Qed.

Ltac escaped_here :=
  split;
  [ repeat split; first [discriminate | assumption]
  | intros Hamp;
    first [ discriminate Hamp
          | congruence
          | eexists; left; reflexivity
          | eexists; right; left; reflexivity
          | eexists; right; right; left; reflexivity
          | eexists; right; right; right; reflexivity ] ].

Lemma append_cons (a : ascii) (s t : string) :
  String a s +:+ t = String a (s +:+ t).
Proof. reflexivity. Qed.

Lemma append_nil_l (t : string) : EmptyString +:+ t = t.
Proof. reflexivity. Qed.

Ltac norm_app H := rewrite ?append_cons, ?append_nil_l in H.

Ltac peel IH :=
  lazymatch goal with
  | H : String _ _ = ?pre +:+ String _ _ |- _ =>
      destruct pre as [|? pre]; norm_app H;
      injection H as ? H; subst; [escaped_here | peel IH]
  | H : escape_each _ = _ +:+ String _ _ |- _ => exact (IH _ _ _ H)
  end.

Lemma escape_each_split (s pre : string) (c : ascii) (post : string) :
  escape_each s = pre +:+ String c post -> escaped_at c post.
Proof.
  revert pre c post. induction s as [|a s IH]; intros pre c post H.
  - destruct pre; discriminate H.
  - cbn [escape_each] in H. unfold escape_char in H.
    destruct (Ascii.eqb_spec a "&") as [->|N1];
      [norm_app H; peel IH|].
    destruct (Ascii.eqb_spec a "<") as [->|N2];
      [norm_app H; peel IH|].
    destruct (Ascii.eqb_spec a ">") as [->|N3];
      [norm_app H; peel IH|].
    destruct (Ascii.eqb_spec a "034") as [->|N4];
      [norm_app H; peel IH|].
    norm_app H. peel IH.
Qed.

(** C4. In the text [svgEscape] returns, for every input string, no
    character is a raw [<], [>] or double quote, and every ampersand is
    the first character of one of [&amp;], [&lt;], [&gt;], [&quot;]: at
    whatever place the text is cut, the character there is none of the
    three and, if it is an ampersand, the text goes on with the rest of an
    entity.  The text is the input with each reserved character replaced by
    its entity and every other character kept. *)
Theorem svgEscape_safe (s : string) :
  svgEscape s = escape_each s /\
  forall pre c post,
    svgEscape s = pre +:+ String c post ->
    (c <> "<"%char /\ c <> ">"%char /\ c <> "034"%char) /\
    (c = "&"%char -> entity_follows post).
Proof.
  split; [apply svgEscape_escape_each|].
  intros pre c post H. rewrite svgEscape_escape_each in H.
  exact (escape_each_split s pre c post H).
Qed.

(** The four reserved characters in one string, with the escaped text cut
    at its second ampersand. *)
Lemma svgEscape_safe_witness :
  svgEscape (String "a" (String "&" (String "<" (String ">" (String "034" "b"))))) =
    "a&amp;&lt;&gt;&quot;b" /\
  entity_follows "lt;&gt;&quot;b".
Proof.
  split; [reflexivity|].
  apply (proj2 (svgEscape_safe
                  (String "a" (String "&" (String "<" (String ">" (String "034" "b"))))))
               "a&amp;" "&"%char "lt;&gt;&quot;b"); reflexivity.
Defined.

(** ** Ordinals *)

Lemma append_assoc (s t u : string) : (s +:+ t) +:+ u = s +:+ (t +:+ u).
Proof.
  induction s as [|a s IH]; [reflexivity|].
  rewrite !append_cons. now rewrite IH.
Qed.

Lemma length_append (s t : string) :
  String.length (s +:+ t) = (String.length s + String.length t)%nat.
Proof.
  induction s as [|a s IH]; [reflexivity|].
  rewrite append_cons. cbn [String.length]. now rewrite IH.
Qed.

Lemma substring_all (t : string) : String.substring 0 (String.length t) t = t.
Proof.
  induction t as [|a t IH]; [reflexivity|].
  cbn [String.length String.substring]. now rewrite IH.
Qed.

Lemma substring_skip (p t : string) :
  String.substring (String.length p) (String.length t) (p +:+ t) = t.
Proof.
  induction p as [|a p IH]; [apply substring_all|].
  rewrite append_cons. cbn [String.length String.substring]. exact IH.
Qed.

Lemma substring_cut (n : nat) (s : string) :
  (n <= String.length s)%nat ->
  s = String.substring 0 n s +:+ String.substring n (String.length s - n) s.
Proof.
  revert s. induction n as [|n IH]; intros s Hn.
  - rewrite Nat.sub_0_r, substring_all. now destruct s.
  - destruct s as [|a s]; cbn [String.length] in Hn; [lia|].
    cbn [String.length String.substring Nat.sub]. rewrite append_cons.
    f_equal. apply IH. lia.
Qed.

(** [endsWith] holds exactly of the strings that have [t] at their end. *)
Lemma endsWith_spec (s t : string) :
  endsWith s t = true <-> exists p, s = p +:+ t.
Proof.
  unfold endsWith. split.
  - destruct (Nat.leb_spec (String.length t) (String.length s)) as [Hle|];
      [|discriminate].
    intros H. apply String.eqb_eq in H.
    exists (String.substring 0 (String.length s - String.length t) s).
    pose proof (substring_cut (String.length s - String.length t) s
                              ltac:(lia)) as Hcut.
    replace (String.length s - (String.length s - String.length t))%nat
      with (String.length t) in Hcut by lia.
    rewrite H in Hcut. exact Hcut.
  - intros [p ->]. rewrite length_append.
    destruct (Nat.leb_spec (String.length t) (String.length p + String.length t))
      as [_|]; [|lia].
    replace (String.length p + String.length t - String.length t)%nat
      with (String.length p) by lia.
    rewrite substring_skip. apply String.eqb_refl.
Qed.

Lemma snoc_inj (p q : string) (c d : ascii) :
  p +:+ String c EmptyString = q +:+ String d EmptyString -> p = q /\ c = d.
Proof.
  revert q. induction p as [|a p IH]; intros [|b q] H;
    rewrite ?append_cons, ?append_nil_l in H.
  - now injection H.
  - injection H as _ H. destruct q; discriminate H.
  - injection H as _ H. destruct p; discriminate H.
  - injection H as -> H. destruct (IH q H) as [-> ->]. now split.
Qed.

Lemma endsWith_snoc1 (p : string) (c d : ascii) :
  endsWith (p +:+ String c EmptyString) (String d EmptyString) = Ascii.eqb c d.
Proof.
  destruct (Ascii.eqb_spec c d) as [->|Hne].
  - apply endsWith_spec. now exists p.
  - apply not_true_is_false. intros H. apply endsWith_spec in H as [q Hq].
    apply snoc_inj in Hq as [_ Hcd]. contradiction.
Qed.

Lemma endsWith_snoc2 (p : string) (c d1 d2 : ascii) :
  endsWith (p +:+ String c EmptyString) (String d1 (String d2 EmptyString)) =
  endsWith p (String d1 EmptyString) && Ascii.eqb c d2.
Proof.
  apply eq_true_iff_eq. rewrite andb_true_iff, !endsWith_spec, Ascii.eqb_eq.
  split.
  - intros [q Hq].
    change (String d1 (String d2 EmptyString))
      with (String d1 EmptyString +:+ String d2 EmptyString) in Hq.
    rewrite <- append_assoc in Hq. apply snoc_inj in Hq as [-> ->].
    split; [now exists q | reflexivity].
  - intros [[q ->] ->]. exists q. now rewrite append_assoc.
Qed.

Lemma digits_fuel (f f' : nat) (n : Z) :
  0 <= n < 2 ^ Z.of_nat (S f) -> n < 2 ^ Z.of_nat (S f') ->
  digits (S f) n = digits (S f') n.
Proof.
  revert f' n. induction f as [|f IH]; intros f' n Hn Hn'.
  - cbn [digits]. destruct (Z.ltb_spec n 10) as [_|Hge]; [reflexivity|].
    change (2 ^ Z.of_nat 1) with 2 in Hn. lia.
  - cbn [digits]. destruct (Z.ltb_spec n 10) as [_|Hge]; [reflexivity|].
    f_equal. destruct f' as [|f'].
    + change (2 ^ Z.of_nat 1) with 2 in Hn'. lia.
    + fold (digits (S f) (n / 10)). fold (digits (S f') (n / 10)).
      rewrite Nat2Z.inj_succ, Z.pow_succ_r in Hn, Hn' by lia.
      assert (0 < 2 ^ Z.of_nat (S f)) by (apply Z.pow_pos_nonneg; lia).
      assert (0 < 2 ^ Z.of_nat (S f')) by (apply Z.pow_pos_nonneg; lia).
      apply IH;
        [split; [apply Z.div_pos; lia | apply Z.div_lt_upper_bound; lia]
        | apply Z.div_lt_upper_bound; lia].
Qed.

Lemma log2_fuel (n : Z) : 0 <= n -> n < 2 ^ Z.of_nat (S (Z.to_nat (Z.log2 n))).
Proof.
  intros Hn. rewrite Nat2Z.inj_succ, Z2Nat.id by apply Z.log2_nonneg.
  destruct (Z.eq_dec n 0) as [->|Hpos]; [reflexivity|].
  apply Z.log2_spec. lia.
Qed.

Lemma toString_nonneg (f : nat) (n : Z) :
  0 <= n < 2 ^ Z.of_nat (S f) -> toString n = digits (S f) n.
Proof.
  intros Hn. unfold toString.
  destruct (Z.ltb_spec n 0) as [|_]; [lia|].
  apply digits_fuel; [split; [lia | apply log2_fuel; lia] | lia].
Qed.

Lemma toString_small (n : Z) :
  0 <= n < 10 -> toString n = String (digit_char n) EmptyString.
Proof.
  intros Hn. rewrite (toString_nonneg 3) by (change (2 ^ Z.of_nat 4) with 16; lia).
  cbn [digits]. destruct (Z.ltb_spec n 10); [reflexivity | lia].
Qed.

Lemma toString_step (n : Z) :
  10 <= n ->
  toString n = toString (n / 10) +:+ String (digit_char (n mod 10)) EmptyString.
Proof.
  intros Hn.
  assert (0 <= n < 2 ^ Z.of_nat (S (S (Z.to_nat (Z.log2 n))))) as Hb.
  { split; [lia|]. rewrite Nat2Z.inj_succ, Z.pow_succ_r by lia.
    pose proof (log2_fuel n). lia. }
  rewrite (toString_nonneg _ n Hb). cbn [digits].
  destruct (Z.ltb_spec n 10) as [|_]; [lia|].
  f_equal. symmetry. apply toString_nonneg.
  split; [apply Z.div_pos; lia|].
  pose proof (log2_fuel n). apply Z.div_lt_upper_bound; lia.
Qed.

Lemma digit_char_eqb (a b : Z) :
  0 <= a < 10 -> 0 <= b < 10 ->
  Ascii.eqb (digit_char a) (digit_char b) = (a =? b).
Proof.
  intros Ha Hb. unfold digit_char.
  destruct (Z.eqb_spec a b) as [->|Hne]; [apply Ascii.eqb_refl|].
  apply Ascii.eqb_neq. intros H.
  apply (f_equal nat_of_ascii) in H.
  rewrite !nat_ascii_embedding in H by lia. lia.
Qed.

(** The last digit of the decimal representation. *)
Lemma endsWith_digit (n d : Z) :
  0 <= n -> 0 <= d < 10 ->
  endsWith (toString n) (String (digit_char d) EmptyString) = (n mod 10 =? d).
Proof.
  intros Hn Hd. destruct (Z.lt_ge_cases n 10) as [Hlt|Hge].
  - rewrite toString_small by lia.
    rewrite <- (append_nil_l (String (digit_char n) EmptyString)).
    rewrite endsWith_snoc1, digit_char_eqb by lia.
    now rewrite Z.mod_small by lia.
  - rewrite toString_step by lia.
    rewrite endsWith_snoc1. apply digit_char_eqb; [|lia].
    apply Z.mod_pos_bound. lia.
Qed.

(** The last two digits of the decimal representation. *)
Lemma endsWith_two_digits (n d1 d2 : Z) :
  0 <= n -> 1 <= d1 < 10 -> 0 <= d2 < 10 ->
  endsWith (toString n)
           (String (digit_char d1) (String (digit_char d2) EmptyString)) =
  (n mod 100 =? 10 * d1 + d2).
Proof.
  intros Hn Hd1 Hd2. destruct (Z.lt_ge_cases n 10) as [Hlt|Hge].
  - rewrite toString_small by lia.
    rewrite Z.mod_small by lia.
    destruct (Z.eqb_spec n (10 * d1 + d2)); [lia|]. reflexivity.
  - rewrite toString_step by lia.
    rewrite endsWith_snoc2, endsWith_digit by (try apply Z.div_pos; lia).
    rewrite digit_char_eqb by (try apply Z.mod_pos_bound; lia).
    apply eq_true_iff_eq.
    rewrite andb_true_iff, !Z.eqb_eq.
    pose proof (Z.div_mod n 10 ltac:(lia)).
    pose proof (Z.mod_pos_bound n 10 ltac:(lia)).
    pose proof (Z.div_mod (n / 10) 10 ltac:(lia)).
    pose proof (Z.mod_pos_bound (n / 10) 10 ltac:(lia)).
    pose proof (Z.div_mod n 100 ltac:(lia)).
    pose proof (Z.mod_pos_bound n 100 ltac:(lia)).
    lia.
Qed.

Lemma ordinal_english_suffix (n : Z) :
  0 <= n -> Rev1.ordinal (Some (Int n)) = toString n +:+ english_suffix n.
Proof.
  intros Hn. unfold Rev1.ordinal, english_suffix. cbn [String_].
  change "11" with (String (digit_char 1) (String (digit_char 1) EmptyString)).
  change "12" with (String (digit_char 1) (String (digit_char 2) EmptyString)).
  change "13" with (String (digit_char 1) (String (digit_char 3) EmptyString)).
  change "1" with (String (digit_char 1) EmptyString).
  change "2" with (String (digit_char 2) EmptyString).
  change "3" with (String (digit_char 3) EmptyString).
  rewrite !endsWith_two_digits, !endsWith_digit by lia.
  change (10 * 1 + 1) with 11. change (10 * 1 + 2) with 12.
  change (10 * 1 + 3) with 13.
  destruct ((n mod 100 =? 11) || (n mod 100 =? 12) || (n mod 100 =? 13));
    [reflexivity|].
  destruct (n mod 10 =? 1); [reflexivity|].
  destruct (n mod 10 =? 2); [reflexivity|].
  destruct (n mod 10 =? 3); reflexivity.
Qed.

Lemma endsWith_one_char_excl (s : string) (c d : ascii) :
  c <> d ->
  endsWith s (String c EmptyString) = true ->
  endsWith s (String d EmptyString) = false.
Proof.
  intros Hne Hc. apply endsWith_spec in Hc as [p ->].
  rewrite endsWith_snoc1. now apply Ascii.eqb_neq.
Qed.

(** C5. [ordinal] gives 1st, 2nd, 3rd, 4th, 11th, 12th, 13th and 21st;
    for every safe integer, a decimal representation ending in 11, 12 or 13
    takes [th], otherwise one ending in 1, 2 or 3 takes [st], [nd] or [rd],
    and every other takes [th]; for a non-negative safe integer this is the
    English suffix as arithmetic gives it.  The day numbers of a date are
    such integers. *)
Theorem ordinal_suffix :
  (Rev1.ordinal (Some (Int 1)) = "1st" /\
   Rev1.ordinal (Some (Int 2)) = "2nd" /\
   Rev1.ordinal (Some (Int 3)) = "3rd" /\
   Rev1.ordinal (Some (Int 11)) = "11th" /\
   Rev1.ordinal (Some (Int 12)) = "12th" /\
   Rev1.ordinal (Some (Int 13)) = "13th" /\
   Rev1.ordinal (Some (Int 21)) = "21st" /\
   Rev1.ordinal (Some (Int 4)) = "4th") /\
  (forall z : Z,
     safe_integer z ->
     let s := toString z in
     let teen := endsWith s "11" || endsWith s "12" || endsWith s "13" in
     (teen = true -> Rev1.ordinal (Some (Int z)) = s +:+ "th") /\
     (teen = false -> endsWith s "1" = true ->
      Rev1.ordinal (Some (Int z)) = s +:+ "st") /\
     (teen = false -> endsWith s "2" = true ->
      Rev1.ordinal (Some (Int z)) = s +:+ "nd") /\
     (teen = false -> endsWith s "3" = true ->
      Rev1.ordinal (Some (Int z)) = s +:+ "rd") /\
     (teen = false -> endsWith s "1" = false -> endsWith s "2" = false ->
      endsWith s "3" = false ->
      Rev1.ordinal (Some (Int z)) = s +:+ "th")) /\
  (forall n : Z,
     0 <= n <= MAX_SAFE_INTEGER ->
     Rev1.ordinal (Some (Int n)) = toString n +:+ english_suffix n).
Proof.
  split; [repeat split; reflexivity|].
  split; [|intros n Hn; apply ordinal_english_suffix; lia].
  intros z _ s teen. unfold Rev1.ordinal. cbn [String_].
  fold s. fold teen.
  split; [intros ->; reflexivity|].
  split; [intros -> ->; reflexivity|].
  split.
  { intros -> H2.
    rewrite (endsWith_one_char_excl s "2" "1") by (discriminate || exact H2).
    now rewrite H2. }
  split.
  { intros -> H3.
    rewrite (endsWith_one_char_excl s "3" "1") by (discriminate || exact H3).
    rewrite (endsWith_one_char_excl s "3" "2") by (discriminate || exact H3).
    now rewrite H3. }
  intros -> -> -> ->. reflexivity.
Qed.

Lemma safe_small (z : Z) : -1000 <= z <= 1000 -> safe_integer z.
Proof. unfold safe_integer, MAX_SAFE_INTEGER. lia. Qed.

(** 112 ends in 12 and takes [th]; 122 does not and takes [nd]. *)
Lemma ordinal_suffix_witness :
  Rev1.ordinal (Some (Int 112)) = "112th" /\
  Rev1.ordinal (Some (Int 122)) = "122nd" /\
  Rev1.ordinal (Some (Int 101)) = "101st".
Proof.
  split; [|split].
  - apply (proj1 (proj1 (proj2 ordinal_suffix) 112 (safe_small 112 ltac:(lia)))).
    reflexivity.
  - apply (proj1 (proj2 (proj2 (proj1 (proj2 ordinal_suffix) 122
                                      (safe_small 122 ltac:(lia))))));
      reflexivity.
  - rewrite (proj2 (proj2 ordinal_suffix) 101)
      by (unfold MAX_SAFE_INTEGER; lia).
    reflexivity.
Defined.

(** ** The map from weekday to day *)





(** ** The renderer sees a week only through its map *)






Lemma Rev1_cell_lookup (x y : Z) (m m' : gmap Z Day) :
  m !! y = m' !! y -> Rev1.cell x y m = Rev1.cell x y m'.
Proof. intros H. unfold Rev1.cell. now rewrite H. Qed.

Lemma Rev2_cell_lookup (x y : Z) (m m' : gmap Z Day) :
  m !! y = m' !! y -> Rev2.cell x y m = Rev2.cell x y m'.
Proof. intros H. unfold Rev2.cell. now rewrite H. Qed.





(** ** Cells without a tooltip *)

Lemma rect_element_untitled (px py rx : Z) (fill : option string) :
  rect_element px py rx fill EmptyString = rect_without_title px py rx fill.
Proof.
  unfold rect_element, rect_without_title. cbn [cat foldr].
  repeat (apply (f_equal2 String.append); [reflexivity|]).
  reflexivity.
Qed.

Lemma Rev1_formatTooltipDate_empty (count : Z) :
  Rev1.formatTooltipDate EmptyString count = EmptyString.
Proof. reflexivity. Qed.

Lemma Rev1_cell_absent (x y : Z) (m : gmap Z Day) :
  m !! y = None ->
  Rev1.cell x y m =
  rect_without_title (PAD_X + x * (CELL + GAP))
                     (Rev1.gridOffsetY + y * (CELL + GAP)) 2
                     (index Rev1.PALETTE 0).
Proof.
  intros H. unfold Rev1.cell. rewrite H. cbn [fmap option_fmap option_map default from_option truthy].
  apply rect_element_untitled.
Qed.

Lemma Rev2_cell_absent (x y : Z) (m : gmap Z Day) :
  m !! y = None ->
  Rev2.cell x y m =
  rect_without_title (PAD_X + x * (CELL + GAP)) (PAD_Y + y * (CELL + GAP)) 2
                     (index Rev2.PALETTE 0).
Proof.
  intros H. unfold Rev2.cell. rewrite H. cbn [fmap option_fmap option_map default from_option truthy].
  apply rect_element_untitled.
Qed.

Lemma Rev1_cell_empty_date (x y : Z) (m : gmap Z Day) (d : Day) :
  m !! y = Some d -> date d = EmptyString ->
  Rev1.cell x y m =
  rect_without_title (PAD_X + x * (CELL + GAP))
                     (Rev1.gridOffsetY + y * (CELL + GAP)) 2
                     (index Rev1.PALETTE (Rev1.levelFromCount (contributionCount d))).
Proof.
  intros H Hdate. unfold Rev1.cell. rewrite H.
  cbn [fmap option_fmap option_map default from_option]. rewrite Hdate.
  apply rect_element_untitled.
Qed.

Lemma Rev2_cell_empty_date (x y : Z) (m : gmap Z Day) (d : Day) :
  m !! y = Some d -> date d = EmptyString ->
  Rev2.cell x y m =
  rect_without_title (PAD_X + x * (CELL + GAP)) (PAD_Y + y * (CELL + GAP)) 2
                     (index Rev2.PALETTE (Rev2.levelFromCount (contributionCount d))).
Proof.
  intros H Hdate. unfold Rev2.cell. rewrite H.
  cbn [fmap option_fmap option_map default from_option]. rewrite Hdate.
  apply rect_element_untitled.
Qed.

(** A day with an empty date and five contributions: its cell has no
    tooltip, but its fill is the colour of level 2, not of level 0. *)
Lemma empty_date_cell_keeps_its_level :
  byWeekday [mkDay EmptyString 5 0] !! 0 = Some (mkDay EmptyString 5 0) /\
  date (mkDay EmptyString 5 0) = EmptyString /\
  Rev1.cell 0 0 (byWeekday [mkDay EmptyString 5 0]) =
    rect_without_title 10 34 2 (Some "#C8D9AA") /\
  String.eqb (Rev1.cell 0 0 (byWeekday [mkDay EmptyString 5 0]))
             (rect_without_title 10 34 2 (index Rev1.PALETTE 0)) = false /\
  String.eqb (Rev2.cell 0 0 (byWeekday [mkDay EmptyString 5 0]))
             (rect_without_title 10 10 2 (index Rev2.PALETTE 0)) = false.
Proof.
  repeat split; vm_compute; reflexivity.
Qed.

(** C10, amended. A cell whose day record is absent, or whose date is the
    empty string, is emitted as a [rect] without any [title] child.  Its
    fill is the colour of the level of its count: level 0 when the record
    is absent, and the level of the record's count when only the date is
    empty.  [formatTooltipDate] returns the empty string for an empty
    date. *)
Theorem untitled_cell (x y : Z) (m : gmap Z Day) :
  (m !! y = None ->
   Rev1.cell x y m =
     rect_without_title (PAD_X + x * (CELL + GAP))
                        (Rev1.gridOffsetY + y * (CELL + GAP)) 2
                        (index Rev1.PALETTE 0) /\
   Rev2.cell x y m =
     rect_without_title (PAD_X + x * (CELL + GAP)) (PAD_Y + y * (CELL + GAP)) 2
                        (index Rev2.PALETTE 0)) /\
  (forall d, m !! y = Some d -> date d = EmptyString ->
   Rev1.cell x y m =
     rect_without_title (PAD_X + x * (CELL + GAP))
                        (Rev1.gridOffsetY + y * (CELL + GAP)) 2
                        (index Rev1.PALETTE
                               (Rev1.levelFromCount (contributionCount d))) /\
   Rev2.cell x y m =
     rect_without_title (PAD_X + x * (CELL + GAP)) (PAD_Y + y * (CELL + GAP)) 2
                        (index Rev2.PALETTE
                               (Rev2.levelFromCount (contributionCount d)))) /\
  (forall count, Rev1.formatTooltipDate EmptyString count = EmptyString).
Proof.
  split; [|split].
  - intros H. split; [now apply Rev1_cell_absent | now apply Rev2_cell_absent].
  - intros d H Hdate.
    split; [now apply Rev1_cell_empty_date | now apply Rev2_cell_empty_date].
  - exact Rev1_formatTooltipDate_empty.
Qed.

(** Row 3 of a week that has only a Tuesday is absent; a Thursday with an
    empty date and no contributions is present and renders the same way. *)
Lemma untitled_cell_witness :
  Rev1.cell 52 3 (byWeekday [tuesday]) =
    rect_without_title 686 73 2 (Some "#97BAA9") /\
  Rev1.cell 52 4 (byWeekday [mkDay EmptyString 0 4]) =
    rect_without_title 686 86 2 (Some "#97BAA9").
Proof.
  split.
  - apply (proj1 (untitled_cell 52 3 (byWeekday [tuesday]))). reflexivity.
  - apply (proj1 (proj2 (untitled_cell 52 4 (byWeekday [mkDay EmptyString 0 4])))
                 (mkDay EmptyString 0 4)); reflexivity.
Defined.

(** ** A calendar with a single day *)

Lemma prefix_split (t s : string) :
  String.prefix t s = true -> exists post, s = t +:+ post.
Proof.
  revert s. induction t as [|a t IH]; intros s H.
  - now exists s.
  - destruct s as [|b s]; cbn [String.prefix] in H; [discriminate|].
    destruct (ascii_dec a b) as [->|]; [|discriminate].
    destruct (IH s H) as [post ->]. now exists post.
Qed.

Lemma includes_split (s t : string) :
  includes s t = true -> exists pre post, s = pre +:+ t +:+ post.
Proof.
  induction s as [|a s IH]; cbn [includes]; intros H;
    apply orb_true_iff in H as [H|H].
  - apply prefix_split in H as [post ->]. now exists EmptyString, post.
  - discriminate.
  - apply prefix_split in H as [post ->]. now exists EmptyString, post.
  - destruct (IH H) as (pre & post & ->). now exists (String a pre), post.
Qed.

Lemma occurs_in_split (r : result string) (t : string) :
  occurs_in r t = true -> exists s pre post, r = Ok s /\ s = pre +:+ t +:+ post.
Proof.
  destruct r as [s|e]; cbn [occurs_in]; intros H; [|discriminate].
  destruct (includes_split s t H) as (pre & post & Hs). now exists s, pre, post.
Qed.

(** A piece of a template literal splits the joined text around it. *)
Lemma cat_elem_split (r : string) (parts : list string) :
  In r parts -> exists a b, cat parts = a +:+ r +:+ b.
Proof.
  induction parts as [|p parts IH]; intros Hin; [destruct Hin|].
  rewrite cat_cons. destruct Hin as [->|Hin].
  - now exists EmptyString, (cat parts).
  - destruct (IH Hin) as (a & b & ->). exists (p +:+ a), b.
    now rewrite append_assoc.
Qed.

Lemma cat_elem_occurrence (r t pre post : string) (parts : list string) :
  In r parts -> r = pre +:+ t +:+ post ->
  exists pre' post', cat parts = pre' +:+ t +:+ post'.
Proof.
  intros Hin ->. destruct (cat_elem_split _ _ Hin) as (a & b & ->).
  exists (a +:+ pre), (post +:+ b). now rewrite !append_assoc.
Qed.

Ltac in_parts := repeat first [left; reflexivity | right].

Lemma Rev1_single_day_rects :
  occurs_in (for_each (seqZ 0 WEEKS) (Rev1.column (paddedWeeks single_day_weeks))
                      EmptyString)
            Rev1_single_day_rect = true.
Proof. vm_compute. reflexivity. Qed.

Lemma Rev2_single_day_rects :
  occurs_in (for_each (seqZ 0 WEEKS) (Rev2.column (paddedWeeks single_day_weeks))
                      EmptyString)
            Rev2_single_day_rect = true.
Proof. vm_compute. reflexivity. Qed.

(** C6. For the calendar of one week holding the single day
    2024-03-05 with 3 contributions on weekday 2, whatever its total, the
    document of the later revision contains the [rect] of that day with the
    tooltip [3 contributions on March 5th], the document of the earlier
    revision contains it with the tooltip [2024-03-05: 3 contributions],
    and in each the [fill] of that [rect] is [PALETTE[levelFromCount(3)]]. *)
Theorem single_day_scenario (total : option Z) :
  (Rev1.cell 52 2 (byWeekday [mkDay "2024-03-05" 3 2]) = Rev1_single_day_rect /\
   Rev1.formatTooltipDate "2024-03-05" 3 = "3 contributions on March 5th" /\
   index Rev1.PALETTE (Rev1.levelFromCount 3) = Some "#C8D9AA" /\
   exists svg pre post,
     Rev1.renderSVG (mkCalendar total single_day_weeks) = Ok svg /\
     svg = pre +:+ Rev1_single_day_rect +:+ post) /\
  (Rev2.cell 52 2 (byWeekday [mkDay "2024-03-05" 3 2]) = Rev2_single_day_rect /\
   index Rev2.PALETTE (Rev2.levelFromCount 3) = Some "#C0D9BA" /\
   exists svg pre post,
     Rev2.renderSVG (mkCalendar total single_day_weeks) = Ok svg /\
     svg = pre +:+ Rev2_single_day_rect +:+ post).
Proof.
  split.
  - split; [vm_compute; reflexivity|]. split; [vm_compute; reflexivity|].
    split; [reflexivity|].
    destruct (occurs_in_split _ _ Rev1_single_day_rects)
      as (rects & pre & post & Hrects & Hsplit).
    unfold Rev1.renderSVG. cbn [weeks]. rewrite Hrects. cbn [rbind].
    match goal with
    | |- exists svg pre post, Ok (cat ?parts) = _ /\ _ =>
        destruct (cat_elem_occurrence rects _ pre post parts
                    ltac:(in_parts) Hsplit) as (pre' & post' & Hdoc);
        exists (cat parts), pre', post'
    end.
    split; [reflexivity | exact Hdoc].
  - split; [vm_compute; reflexivity|]. split; [reflexivity|].
    destruct (occurs_in_split _ _ Rev2_single_day_rects)
      as (rects & pre & post & Hrects & Hsplit).
    unfold Rev2.renderSVG. cbn [weeks]. rewrite Hrects. cbn [rbind].
    match goal with
    | |- exists svg pre post, Ok (cat ?parts) = _ /\ _ =>
        destruct (cat_elem_occurrence rects _ pre post parts
                    ltac:(in_parts) Hsplit) as (pre' & post' & Hdoc);
        exists (cat parts), pre', post'
    end.
    split; [reflexivity | exact Hdoc].
Qed.

(** * Further properties *)

(** ** More on escaping *)

Lemma escape_char_cases (a : ascii) :
  (reserved a = false /\ escape_char a = String a EmptyString) \/
  (reserved a = true /\
   (a = "&"%char /\ escape_char a = "&amp;" \/
    a = "<"%char /\ escape_char a = "&lt;" \/
    a = ">"%char /\ escape_char a = "&gt;" \/
    a = "034"%char /\ escape_char a = "&quot;")).
Proof.
  unfold reserved, escape_char.
  destruct (Ascii.eqb_spec a "&") as [->|]; [right; split; [reflexivity|tauto]|].
  destruct (Ascii.eqb_spec a "<") as [->|]; [right; split; [reflexivity|tauto]|].
  destruct (Ascii.eqb_spec a ">") as [->|]; [right; split; [reflexivity|tauto]|].
  destruct (Ascii.eqb_spec a "034") as [->|]; [right; split; [reflexivity|tauto]|].
  left. split; reflexivity.
Qed.

Lemma escape_each_app (s t : string) :
  escape_each (s +:+ t) = escape_each s +:+ escape_each t.
Proof.
  induction s as [|a s IH]; [reflexivity|].
  rewrite append_cons. cbn [escape_each]. now rewrite IH, append_assoc.
Qed.

Lemma escape_each_length (s : string) :
  (String.length s <= String.length (escape_each s))%nat.
Proof.
  induction s as [|a s IH]; [reflexivity|].
  cbn [escape_each]. rewrite length_append. cbn [String.length].
  destruct (escape_char_cases a) as [[_ ->]|[_ [[_ ->]|[[_ ->]|[[_ ->]|[_ ->]]]]]];
    cbn [String.length]; lia.
Qed.

Lemma escape_each_safe (s : string) :
  has_reserved s = false -> escape_each s = s.
Proof.
  induction s as [|a s IH]; [reflexivity|]. cbn [has_reserved escape_each].
  intros H. apply orb_false_iff in H as [Ha Hs].
  destruct (escape_char_cases a) as [[_ ->]|[Hr _]]; [|congruence].
  rewrite append_cons, append_nil_l. now rewrite IH.
Qed.

Lemma escape_each_fixed (s : string) :
  escape_each s = s -> has_reserved s = false.
Proof.
  induction s as [|a s IH]; [reflexivity|]. cbn [has_reserved escape_each].
  intros H. pose proof (escape_each_length s) as Hlen.
  destruct (escape_char_cases a) as [[Hr Ha]|[_ Ha]].
  - rewrite Ha, append_cons, append_nil_l in H. injection H as H.
    rewrite Hr. now apply IH.
  - exfalso.
    destruct Ha as [[-> Ha]|[[-> Ha]|[[-> Ha]|[-> Ha]]]]; rewrite Ha in H;
      rewrite !append_cons, append_nil_l in H; try discriminate H.
    injection H as H. apply (f_equal String.length) in H.
    cbn [String.length] in H. lia.
Qed.

(** X1. [svgEscape] returns its argument unchanged exactly when the argument
    has none of the four reserved characters. *)
Theorem svgEscape_identity_iff (s : string) :
  svgEscape s = s <-> has_reserved s = false.
Proof.
  rewrite svgEscape_escape_each. split.
  - apply escape_each_fixed.
  - apply escape_each_safe.
Qed.

Lemma svgEscape_identity_iff_witness :
  svgEscape "3 contributions on March 5th" = "3 contributions on March 5th".
Proof.
  apply (proj2 (svgEscape_identity_iff "3 contributions on March 5th")).
  reflexivity.
Defined.

Lemma escape_each_inj (s t : string) :
  escape_each s = escape_each t -> s = t.
Proof.
  revert t. induction s as [|a s IH]; intros [|b t] H; cbn [escape_each] in H.
  - reflexivity.
  - exfalso.
    destruct (escape_char_cases b) as [[_ Hb]|[_ [[_ Hb]|[[_ Hb]|[[_ Hb]|[_ Hb]]]]]];
      rewrite Hb in H; discriminate H.
  - exfalso.
    destruct (escape_char_cases a) as [[_ Ha]|[_ [[_ Ha]|[[_ Ha]|[[_ Ha]|[_ Ha]]]]]];
      rewrite Ha in H; discriminate H.
  - destruct (escape_char_cases a) as [[Hra Ha]|[_ Ha]];
      destruct (escape_char_cases b) as [[Hrb Hb]|[_ Hb]].
    + rewrite Ha, Hb, !append_cons, !append_nil_l in H.
      injection H as -> H. f_equal. now apply IH.
    + exfalso.
      destruct Hb as [[-> Hb]|[[-> Hb]|[[-> Hb]|[-> Hb]]]];
        rewrite Ha, Hb, !append_cons, !append_nil_l in H;
        injection H as -> _; discriminate Hra.
    + exfalso.
      destruct Ha as [[-> Ha]|[[-> Ha]|[[-> Ha]|[-> Ha]]]];
        rewrite Ha, Hb, !append_cons, !append_nil_l in H;
        injection H as <- _; discriminate Hrb.
    + destruct Ha as [[-> Ha]|[[-> Ha]|[[-> Ha]|[-> Ha]]]];
        destruct Hb as [[-> Hb]|[[-> Hb]|[[-> Hb]|[-> Hb]]]];
        rewrite ?Ha, ?Hb, !append_cons, !append_nil_l in H;
        try discriminate H;
        injection H as H; f_equal; now apply IH.
Qed.

(** X2. [svgEscape] loses nothing: two strings with the same escaped text are
    the same string. *)
Theorem svgEscape_injective (s t : string) :
  svgEscape s = svgEscape t -> s = t.
Proof.
  rewrite !svgEscape_escape_each. apply escape_each_inj.
Qed.

Lemma svgEscape_injective_witness :
  svgEscape "a<b" = svgEscape (String "a" (String "<" "b")) /\
  "a<b" = String "a" (String "<" "b").
Proof.
  split; [reflexivity|].
  apply (svgEscape_injective "a<b" (String "a" (String "<" "b"))).
  reflexivity.
Defined.

(** ** The program around the renderer *)


(** X4. [fetchCalendar] returns a calendar exactly when the response is
    successful, its body parses, lists no API error and holds the calendar.
    A failed HTTP status is reported with the status and the raw body text,
    whatever else the body says. *)
Theorem fetchCalendar_outcome (token : string) (w : World) :
  (forall cal,
     snd (fetchCalendar token w) = Ok cal <->
     exists res body,
       network w (graphql_request token) = Some res /\ ok res = true /\
       json res = Some body /\ errors body = [] /\ calendar body = Some cal) /\
  (forall res,
     network w (graphql_request token) = Some res -> ok res = false ->
     snd (fetchCalendar token w) = Throw (ApiError (status res) (text res))).
Proof.
  unfold fetchCalendar, bind, fetch, throw, ret, graphql_request. split.
  - intros cal. split.
    + destruct (network w _) as [res|] eqn:Hnet; cbn; [|discriminate].
      destruct (ok res) eqn:Hok; cbn; [|discriminate].
      destruct (json res) as [body|] eqn:Hjson; cbn; [|discriminate].
      destruct (errors body) eqn:Herr; cbn; [|discriminate].
      destruct (calendar body) eqn:Hcal; cbn; [|discriminate].
      intros [= ->]. exists res, body. repeat split; assumption.
    + intros (res & body & -> & Hok & Hjson & Herr & Hcal). cbn.
      rewrite Hok. cbn. rewrite Hjson. cbn. rewrite Herr, Hcal. reflexivity.
  - intros res -> Hok. cbn. rewrite Hok. reflexivity.
Qed.

Lemma fetchCalendar_outcome_witness :
  snd (fetchCalendar "t0k" (world_answering good_response)) =
    Ok (mkCalendar (Some 3) [mkWeek (Some [mkDay "2024-03-05" 3 2])]) /\
  snd (fetchCalendar "t0k" (world_answering bad_response)) =
    Throw (ApiError 401 "Bad credentials").
Proof.
  split.
  - apply (proj1 (fetchCalendar_outcome "t0k" (world_answering good_response))).
    exists good_response.
    exists (mkBody [] (Some (mkCalendar (Some 3)
                               [mkWeek (Some [mkDay "2024-03-05" 3 2])]))).
    repeat split; reflexivity.
  - apply (proj2 (fetchCalendar_outcome "t0k" (world_answering bad_response))
                 bad_response); reflexivity.
Defined.

(** The path of the output file for usual working directories. *)
Lemma outFile_examples :
  outFile "/repo" = "/repo/assets/contributions.svg" /\
  outFile "/" = "/assets/contributions.svg" /\
  outFile "/home/runner/work/" = "/home/runner/work/assets/contributions.svg".
Proof. repeat split; reflexivity. Qed.

(** X5. However a run ends, it alters no file but the output file, and that
    one only in the write step.  It ends with exit code 0 exactly after
    having written what the renderer returned for some calendar to
    [assets/contributions.svg] under the working directory and printed the
    confirmation line, with nothing on the error stream.  Otherwise it ends with exit code 1, has printed no
    confirmation and has put one error on the error stream; the files are
    then as before, unless the error is that of the write step, which may
    have left other contents in the output file.  This holds for any
    renderer, network and file system. *)
Theorem run_all_or_nothing (renderSVG : Calendar -> result string) (w : World) :
  let w' := run renderSVG w in
  (exitCode w' = Some 0 /\
   (exists dir cal svg,
      cwd w = Some dir /\ renderSVG cal = Ok svg /\
      files w' = <[outFile dir := svg]> (files w) /\
      stdout w' = ("Wrote " +:+ outFile dir) :: stdout w) /\
   stderr w' = stderr w) \/
  (exitCode w' = Some 1 /\ stdout w' = stdout w /\
   exists err,
     stderr w' = err :: stderr w /\
     (files w' = files w \/
      err = WriteError /\
      exists dir residue,
        cwd w = Some dir /\
        files w' = <[outFile dir := residue]> (files w))).
Proof.
  unfold run, main, fetchCalendar, bind, fetch, throw, ret, lift, process_cwd,
    mkdirSync, writeFileSync, with_file, console_log, outFile, outDir.
  cbn zeta.
  destruct (GH_TOKEN w) as [token|]; [|right; cbn; eauto 8].
  destruct (truthy token); cbn; [|right; eauto 8].
  destruct (network w _) as [res|]; cbn; [|right; eauto 8].
  destruct (ok res); cbn; [|right; eauto 8].
  destruct (json res) as [body|]; cbn; [|right; eauto 8].
  destruct (errors body); cbn; [|right; eauto 8].
  destruct (calendar body) as [cal|]; cbn; [|right; eauto 8].
  destruct (renderSVG cal) as [svg|err] eqn:Hsvg; cbn; [|right; eauto 8].
  destruct (cwd w) as [dir|]; cbn; [|right; eauto 8].
  destruct (fs_mkdir w _); cbn; [|right; eauto 8].
  destruct (fs_write w _ svg) as [| |residue]; cbn.
  - left. split; [reflexivity|]. split; [|reflexivity].
    exists dir, cal, svg. repeat split; try reflexivity. exact Hsvg.
  - right. eauto 8.
  - right. split; [reflexivity|]. split; [reflexivity|].
    exists WriteError. split; [reflexivity|]. right. split; [reflexivity|].
    exists dir, residue. split; reflexivity.
Qed.

(** X6. With a token set, a successful response that holds a calendar and
    no API error, a working directory in which [assets] can be created and
    the output file written, the run of either revision ends with exit code
    0, has sent one request, has printed the confirmation, and the output
    file holds exactly the text [renderSVG] returns for that calendar. *)
Theorem run_writes_rendering
    (w : World) (token : string) (res : Response) (body : Body) (cal : Calendar)
    (dir : string) :
  GH_TOKEN w = Some token -> truthy token = true ->
  network w (graphql_request token) = Some res -> ok res = true ->
  json res = Some body -> errors body = [] -> calendar body = Some cal ->
  cwd w = Some dir -> fs_mkdir w (outDir dir) = true ->
  (forall svg, fs_write w (outFile dir) svg = Written) ->
  (exists svg,
     Rev1.renderSVG cal = Ok svg /\
     files (run Rev1.renderSVG w) = <[outFile dir := svg]> (files w) /\
     stdout (run Rev1.renderSVG w) = ("Wrote " +:+ outFile dir) :: stdout w /\
     exitCode (run Rev1.renderSVG w) = Some 0 /\
     requests (run Rev1.renderSVG w) = graphql_request token :: requests w) /\
  (exists svg,
     Rev2.renderSVG cal = Ok svg /\
     files (run Rev2.renderSVG w) = <[outFile dir := svg]> (files w) /\
     stdout (run Rev2.renderSVG w) = ("Wrote " +:+ outFile dir) :: stdout w /\
     exitCode (run Rev2.renderSVG w) = Some 0 /\
     requests (run Rev2.renderSVG w) = graphql_request token :: requests w).
Proof.
  intros Htoken Htruthy Hnet Hok Hjson Herr Hcal Hcwd Hmkdir Hwrite.
  unfold graphql_request in Hnet. unfold outDir in Hmkdir.
  unfold outFile, outDir in Hwrite. split.
  - destruct (Rev1_renderSVG_ok cal) as [svg Hsvg]. exists svg.
    split; [exact Hsvg|].
    unfold run, main, fetchCalendar, bind, fetch, throw, ret, lift, process_cwd,
      mkdirSync, writeFileSync, with_file, console_log, outFile, outDir,
      graphql_request.
    rewrite Htoken, Htruthy. cbn. rewrite Hnet. cbn. rewrite Hok. cbn.
    rewrite Hjson. cbn. rewrite Herr, Hcal. cbn. rewrite Hsvg. cbn.
    rewrite Hcwd. cbn. rewrite Hmkdir. cbn. rewrite Hwrite. cbn.
    repeat split; reflexivity.
  - destruct (Rev2_renderSVG_ok cal) as [svg Hsvg]. exists svg.
    split; [exact Hsvg|].
    unfold run, main, fetchCalendar, bind, fetch, throw, ret, lift, process_cwd,
      mkdirSync, writeFileSync, with_file, console_log, outFile, outDir,
      graphql_request.
    rewrite Htoken, Htruthy. cbn. rewrite Hnet. cbn. rewrite Hok. cbn.
    rewrite Hjson. cbn. rewrite Herr, Hcal. cbn. rewrite Hsvg. cbn.
    rewrite Hcwd. cbn. rewrite Hmkdir. cbn. rewrite Hwrite. cbn.
    repeat split; reflexivity.
Qed.

(** A run in the root directory writes [/assets/contributions.svg]. *)
Lemma run_writes_rendering_witness :
  exitCode (run Rev1.renderSVG (world_answering_in "/" good_response)) = Some 0 /\
  stdout (run Rev2.renderSVG (world_answering_in "/" good_response)) =
    ["Wrote /assets/contributions.svg"].
Proof.
  destruct (run_writes_rendering
              (world_answering_in "/" good_response) "t0k" good_response
              (mkBody [] (Some (mkCalendar (Some 3)
                                  [mkWeek (Some [mkDay "2024-03-05" 3 2])])))
              (mkCalendar (Some 3) [mkWeek (Some [mkDay "2024-03-05" 3 2])])
              "/"
              eq_refl eq_refl eq_refl eq_refl eq_refl eq_refl eq_refl
              eq_refl eq_refl (fun _ => eq_refl))
    as [(svg1 & _ & _ & _ & Hexit1 & _) (svg2 & _ & _ & Hout2 & _ & _)].
  split; [exact Hexit1 | exact Hout2].
Defined.


(** ** The grid *)

Lemma append_nil_r (s : string) : s +:+ EmptyString = s.
Proof. induction s as [|a s IH]; [reflexivity|]. now rewrite append_cons, IH. Qed.

Lemma cat_app (l1 l2 : list string) : cat (l1 ++ l2) = cat l1 +:+ cat l2.
Proof.
  induction l1 as [|p l1 IH]; [reflexivity|].
  cbn [app]. rewrite !cat_cons, IH. now rewrite append_assoc.
Qed.

Lemma foldl_append_cat {A} (f : A -> string) (l : list A) (acc : string) :
  foldl (fun acc a => acc +:+ f a) acc l = acc +:+ cat (f <$> l).
Proof.
  revert acc. induction l as [|a l IH]; intros acc; cbn [foldl fmap list_fmap].
  - now rewrite append_nil_r.
  - rewrite IH, cat_cons. now rewrite append_assoc.
Qed.

Section Grid.

Variable cell : Z -> Z -> gmap Z Day -> string.

Lemma for_each_grid (l pre : list Week) (acc : string) :
  for_each (seqZ (Z.of_nat (length pre)) (Z.of_nat (length l)))
           (column_of (fun x m rects =>
                         foldl (fun rects y => rects +:+ cell x y m) rects
                               (seqZ 0 DAYS))
                      (pre ++ l))
           acc =
  Ok (acc +:+ cat (imap (fun i w => column_cells cell
                                      (Z.of_nat (length pre + i)) (week_map w)) l)).
Proof.
  revert pre acc. induction l as [|w l IH]; intros pre acc.
  - cbn. now rewrite append_nil_r.
  - rewrite seqZ_cons by (cbn [length]; lia). cbn [for_each].
    unfold column_of at 1, week_days.
    rewrite Nat2Z.id, list_lookup_middle by reflexivity. cbn [rbind].
    replace (Z.succ (Z.of_nat (length pre))) with (Z.of_nat (length (pre ++ [w])))
      by (rewrite length_app; cbn [length]; lia).
    replace (Z.pred (Z.of_nat (length (w :: l)))) with (Z.of_nat (length l))
      by (cbn [length]; lia).
    rewrite (cons_middle w pre l), app_assoc, IH.
    rewrite foldl_append_cat, append_assoc. do 2 f_equal.
    cbn [imap]. rewrite cat_cons.
    replace (length pre + 0)%nat with (length pre) by lia.
    unfold column_cells at 2, week_map at 2. do 2 f_equal.
    apply imap_ext. intros i w' _. cbn.
    rewrite length_app. cbn [length]. do 2 f_equal. lia.
Qed.

Lemma for_each_is_grid (ws : list Week) :
  for_each (seqZ 0 WEEKS)
           (column_of (fun x m rects =>
                         foldl (fun rects y => rects +:+ cell x y m) rects
                               (seqZ 0 DAYS))
                      (paddedWeeks ws))
           EmptyString =
  Ok (grid cell (paddedWeeks ws)).
Proof.
  pose proof (for_each_grid (paddedWeeks ws) [] EmptyString) as H.
  rewrite paddedWeeks_length in H. exact H.
Qed.

End Grid.

Lemma Rev1_rects_grid (ws : list Week) :
  for_each (seqZ 0 WEEKS) (Rev1.column (paddedWeeks ws)) EmptyString =
  Ok (grid Rev1.cell (paddedWeeks ws)).
Proof. exact (for_each_is_grid Rev1.cell ws). Qed.

Lemma Rev2_rects_grid (ws : list Week) :
  for_each (seqZ 0 WEEKS) (Rev2.column (paddedWeeks ws)) EmptyString =
  Ok (grid Rev2.cell (paddedWeeks ws)).
Proof. exact (for_each_is_grid Rev2.cell ws). Qed.

(** The document of the later revision is a frame around the grid; the
    frame depends on the total only. *)
Lemma Rev1_frame (total : option Z) :
  exists pre post, forall ws,
    Rev1.renderSVG (mkCalendar total ws) =
    Ok (pre +:+ grid Rev1.cell (paddedWeeks ws) +:+ post).
Proof.
  unfold Rev1.renderSVG. cbn [weeks totalContributions].
  match goal with
  | |- context [rbind _ (fun rects => Ok (cat (@?parts rects)))] =>
      exists (cat (take 10 (parts EmptyString))),
             (cat (drop 11 (parts EmptyString)))
  end.
  intros ws. rewrite Rev1_rects_grid. cbn [rbind].
  apply (f_equal Ok). cbn [take drop]. rewrite <- cat_cons, <- cat_app.
  reflexivity.
Qed.

(** The document of the earlier revision is a fixed frame around the grid. *)
Lemma Rev2_frame :
  exists pre post, forall total ws,
    Rev2.renderSVG (mkCalendar total ws) =
    Ok (pre +:+ grid Rev2.cell (paddedWeeks ws) +:+ post).
Proof.
  unfold Rev2.renderSVG. cbn [weeks].
  match goal with
  | |- context [rbind _ (fun rects => Ok (cat (@?parts rects)))] =>
      exists (cat (take 6 (parts EmptyString))),
             (cat (drop 7 (parts EmptyString)))
  end.
  intros total ws. rewrite Rev2_rects_grid. cbn [rbind].
  apply (f_equal Ok). cbn [take drop]. rewrite <- cat_cons, <- cat_app.
  reflexivity.
Qed.

(** X7. The document is a frame around the grid of cells: 53 columns of 7
    cells, column [i] written from the week at index [i] of the normalised
    week list, rows 0 to 6 in order.  In the later revision the frame
    depends on the total only, in the earlier revision on nothing. *)
Theorem renderSVG_frame_and_grid :
  (forall total, exists pre post, forall ws,
     Rev1.renderSVG (mkCalendar total ws) =
     Ok (pre +:+ grid Rev1.cell (paddedWeeks ws) +:+ post)) /\
  (exists pre post, forall total ws,
     Rev2.renderSVG (mkCalendar total ws) =
     Ok (pre +:+ grid Rev2.cell (paddedWeeks ws) +:+ post)) /\
  (forall ws, length (paddedWeeks ws) = 53%nat) /\
  (forall cell x m,
     column_cells cell x m =
     cat [cell x 0 m; cell x 1 m; cell x 2 m; cell x 3 m; cell x 4 m;
          cell x 5 m; cell x 6 m]).
Proof.
  split; [exact Rev1_frame|]. split; [exact Rev2_frame|].
  split; [exact paddedWeeks_length|]. reflexivity.
Qed.

(** ** What the renderer reads of the weeks *)

Lemma imap_rows_ext (f : nat -> Week -> string) (p p' : list Week) :
  (forall i w w', week_rows w = week_rows w' -> f i w = f i w') ->
  week_rows <$> p = week_rows <$> p' ->
  imap f p = imap f p'.
Proof.
  revert f p'. induction p as [|w p IH]; intros f [|w' p'] Hf Hrows;
    try discriminate Hrows; [reflexivity|].
  change (week_rows w :: (week_rows <$> p) = week_rows w' :: (week_rows <$> p'))
    in Hrows.
  assert (week_rows w = week_rows w') as Hw by congruence.
  assert (week_rows <$> p = week_rows <$> p') as Hp by congruence.
  rewrite !imap_cons, (Hf 0%nat w w' Hw). f_equal.
  apply IH; [|exact Hp]. intros i v v' Hv. now apply Hf.
Qed.

Lemma column_cells_rows (cell : Z -> Z -> gmap Z Day -> string) (x : Z) (w w' : Week) :
  (forall x y m m', m !! y = m' !! y -> cell x y m = cell x y m') ->
  week_rows w = week_rows w' ->
  column_cells cell x (week_map w) = column_cells cell x (week_map w').
Proof.
  intros Hcell Hrows. unfold column_cells. f_equal.
  apply Forall_fmap_ext_1.
  apply (proj2 (Forall_fmap_ext _ _ _)) in Hrows.
  eapply Forall_impl; [exact Hrows|]. intros y Hy. now apply Hcell.
Qed.

Lemma grid_rows (cell : Z -> Z -> gmap Z Day -> string) (p p' : list Week) :
  (forall x y m m', m !! y = m' !! y -> cell x y m = cell x y m') ->
  week_rows <$> p = week_rows <$> p' ->
  grid cell p = grid cell p'.
Proof.
  intros Hcell Hrows. unfold grid. f_equal.
  apply imap_rows_ext; [|exact Hrows].
  intros i w w' Hw. now apply column_cells_rows.
Qed.

(** Two week lists that give the same rows after normalisation give the
    same document. *)
Lemma renderSVG_rows (total : option Z) (ws ws' : list Week) :
  week_rows <$> paddedWeeks ws = week_rows <$> paddedWeeks ws' ->
  Rev1.renderSVG (mkCalendar total ws) = Rev1.renderSVG (mkCalendar total ws') /\
  Rev2.renderSVG (mkCalendar total ws) = Rev2.renderSVG (mkCalendar total ws').
Proof.
  intros Hrows. split.
  - destruct (Rev1_frame total) as (pre & post & H). rewrite !H.
    now rewrite (grid_rows Rev1.cell _ _ Rev1_cell_lookup Hrows).
  - destruct Rev2_frame as (pre & post & H). rewrite !H.
    now rewrite (grid_rows Rev2.cell _ _ Rev2_cell_lookup Hrows).
Qed.

Lemma week_rows_padded (ws : list Week) :
  week_rows <$> paddedWeeks ws =
  replicate (53 - length ws) (week_rows emptyWeek) ++
  drop (length ws - 53) (week_rows <$> ws).
Proof. now rewrite paddedWeeks_eq, fmap_app, fmap_replicate, fmap_drop. Qed.

Lemma week_rows_dayless (w : Week) : dayless w -> week_rows w = week_rows emptyWeek.
Proof. unfold dayless, week_rows, week_map. now intros ->. Qed.

Lemma week_rows_all_dayless (l : list Week) :
  Forall dayless l ->
  week_rows <$> l = replicate (length l) (week_rows emptyWeek).
Proof.
  induction 1 as [|w l Hw _ IH]; [reflexivity|].
  rewrite fmap_cons. cbn [length replicate].
  now rewrite IH, (week_rows_dayless w Hw).
Qed.

(** X8. Only the 53 most recent weeks are drawn: weeks in front of the last
    53 have no effect on the document, in either revision. *)
Theorem renderSVG_ignores_older_weeks
    (total : option Z) (older recent : list Week) :
  length recent = 53%nat ->
  Rev1.renderSVG (mkCalendar total (older ++ recent)) =
    Rev1.renderSVG (mkCalendar total recent) /\
  Rev2.renderSVG (mkCalendar total (older ++ recent)) =
    Rev2.renderSVG (mkCalendar total recent).
Proof.
  intros Hlen. apply renderSVG_rows. f_equal.
  rewrite !paddedWeeks_eq, length_app, Hlen.
  replace (53 - (length older + 53))%nat with 0%nat by lia.
  replace (length older + 53 - 53)%nat with (length older) by lia.
  now rewrite drop_app_length.
Qed.

Lemma renderSVG_ignores_older_weeks_witness :
  Rev1.renderSVG
    (mkCalendar None ([mkWeek (Some [tuesday])] ++ replicate 53 emptyWeek)) =
  Rev1.renderSVG (mkCalendar None (replicate 53 emptyWeek)).
Proof.
  exact (proj1 (renderSVG_ignores_older_weeks
                  None [mkWeek (Some [tuesday])] (replicate 53 emptyWeek)
                  eq_refl)).
Defined.

(** X9. Weeks without days in front of a week list that is not longer
    than 53 weeks with them are the same as the padding: the document does
    not change when they are removed.  A week whose day list is missing
    counts as one without days. *)
Theorem renderSVG_leading_dayless_weeks
    (total : option Z) (front ws : list Week) :
  Forall dayless front -> (length front + length ws <= 53)%nat ->
  Rev1.renderSVG (mkCalendar total (front ++ ws)) =
    Rev1.renderSVG (mkCalendar total ws) /\
  Rev2.renderSVG (mkCalendar total (front ++ ws)) =
    Rev2.renderSVG (mkCalendar total ws).
Proof.
  intros Hfront Hlen. apply renderSVG_rows.
  rewrite !week_rows_padded, length_app, fmap_app.
  replace (length front + length ws - 53)%nat with 0%nat by lia.
  replace (length ws - 53)%nat with 0%nat by lia. rewrite !drop_0.
  rewrite (week_rows_all_dayless front Hfront).
  rewrite app_assoc, <- replicate_add. do 2 f_equal. lia.
Qed.

Lemma renderSVG_leading_dayless_weeks_witness :
  Rev1.renderSVG
    (mkCalendar None ([mkWeek None; emptyWeek] ++ [mkWeek (Some [tuesday])])) =
  Rev1.renderSVG (mkCalendar None [mkWeek (Some [tuesday])]).
Proof.
  refine (proj1 (renderSVG_leading_dayless_weeks
                   None [mkWeek None; emptyWeek] [mkWeek (Some [tuesday])] _ _)).
  - repeat constructor.
  - cbn. lia.
Defined.

(** X10. A calendar all of whose weeks are without days, however many
    there are, gives the document of the calendar without weeks. *)
Theorem renderSVG_dayless_calendar (total : option Z) (ws : list Week) :
  Forall dayless ws ->
  Rev1.renderSVG (mkCalendar total ws) = Rev1.renderSVG (mkCalendar total []) /\
  Rev2.renderSVG (mkCalendar total ws) = Rev2.renderSVG (mkCalendar total []).
Proof.
  intros Hws. apply renderSVG_rows.
  rewrite !week_rows_padded, (week_rows_all_dayless ws Hws), drop_replicate,
    <- replicate_add.
  cbn [length fmap list_fmap drop]. rewrite app_nil_r. f_equal. lia.
Qed.

Lemma renderSVG_dayless_calendar_witness :
  Rev2.renderSVG (mkCalendar None (replicate 60 (mkWeek None))) =
  Rev2.renderSVG (mkCalendar None []).
Proof.
  refine (proj2 (renderSVG_dayless_calendar None (replicate 60 (mkWeek None)) _)).
  apply Forall_replicate. reflexivity.
Defined.

(** ** Days that are not drawn, and the order of the days *)

Lemma set_days_lookup_congr (l : list Day) (m m' : gmap Z Day) (y : Z) :
  m !! y = m' !! y ->
  foldl (fun m d => <[weekday d := d]> m) m l !! y =
  foldl (fun m d => <[weekday d := d]> m) m' l !! y.
Proof.
  revert m m'. induction l as [|a l IH]; intros m m' H; cbn [foldl]; [exact H|].
  apply IH. rewrite !lookup_insert. case_decide; [reflexivity | exact H].
Qed.

Lemma byWeekday_remove_other (l1 l2 : list Day) (d : Day) (y : Z) :
  weekday d <> y ->
  byWeekday (l1 ++ d :: l2) !! y = byWeekday (l1 ++ l2) !! y.
Proof.
  intros Hne. unfold byWeekday. rewrite !foldl_app. cbn [foldl].
  apply set_days_lookup_congr. now apply lookup_insert_ne.
Qed.

(** Replacing one week by a week with the same rows keeps the document. *)
Lemma renderSVG_week_rows (total : option Z) (ws1 ws2 : list Week) (w w' : Week) :
  week_rows w = week_rows w' ->
  Rev1.renderSVG (mkCalendar total (ws1 ++ w :: ws2)) =
    Rev1.renderSVG (mkCalendar total (ws1 ++ w' :: ws2)) /\
  Rev2.renderSVG (mkCalendar total (ws1 ++ w :: ws2)) =
    Rev2.renderSVG (mkCalendar total (ws1 ++ w' :: ws2)).
Proof.
  intros Hrows. apply renderSVG_rows.
  rewrite !week_rows_padded, !length_app, !fmap_app, !fmap_cons. cbn [length].
  now rewrite Hrows.
Qed.

(** X11. A day whose weekday lies outside 0..6 is not drawn and disturbs
    nothing: the document is the same as without that day. *)
Theorem renderSVG_ignores_weekday_out_of_range
    (total : option Z) (ws1 ws2 : list Week) (l1 l2 : list Day) (d : Day) :
  weekday d < 0 \/ 6 < weekday d ->
  Rev1.renderSVG (mkCalendar total (ws1 ++ mkWeek (Some (l1 ++ d :: l2)) :: ws2)) =
    Rev1.renderSVG (mkCalendar total (ws1 ++ mkWeek (Some (l1 ++ l2)) :: ws2)) /\
  Rev2.renderSVG (mkCalendar total (ws1 ++ mkWeek (Some (l1 ++ d :: l2)) :: ws2)) =
    Rev2.renderSVG (mkCalendar total (ws1 ++ mkWeek (Some (l1 ++ l2)) :: ws2)).
Proof.
  intros Hout. apply renderSVG_week_rows.
  unfold week_rows, week_map. cbn [contributionDays default from_option].
  apply Forall_fmap_ext_1, Forall_forall. intros y Hy.
  apply elem_of_seqZ in Hy. unfold DAYS in Hy.
  apply byWeekday_remove_other. lia.
Qed.

Lemma renderSVG_ignores_weekday_out_of_range_witness :
  Rev1.renderSVG
    (mkCalendar None ([] ++ mkWeek (Some ([tuesday] ++ mkDay "2024-03-09" 4 7 :: []))
                         :: [])) =
  Rev1.renderSVG
    (mkCalendar None ([] ++ mkWeek (Some ([tuesday] ++ [])) :: [])).
Proof.
  refine (proj1 (renderSVG_ignores_weekday_out_of_range
                   None [] [] [tuesday] [] (mkDay "2024-03-09" 4 7) _)).
  right. reflexivity.
Defined.

Lemma set_days_permutation (l l' : list Day) :
  l ≡ₚ l' -> NoDup (weekday <$> l) ->
  forall m : gmap Z Day,
    foldl (fun m d => <[weekday d := d]> m) m l =
    foldl (fun m d => <[weekday d := d]> m) m l'.
Proof.
  induction 1 as [|x l l' _ IH|x y l|l1 l2 l3 H12 IH12 H23 IH23];
    intros Hnd m; cbn [foldl].
  - reflexivity.
  - rewrite fmap_cons in Hnd. apply NoDup_cons in Hnd as [_ Hnd]. now apply IH.
  - rewrite !fmap_cons in Hnd. apply NoDup_cons in Hnd as [Hy _].
    rewrite (insert_insert_ne m (weekday x) (weekday y)); [reflexivity|].
    intros Heq. apply Hy. rewrite Heq. left.
  - rewrite IH12 by exact Hnd. apply IH23.
    now rewrite <- (fmap_Permutation weekday _ _ H12).
Qed.

(** X12. When the days of a week have pairwise distinct weekdays, their
    order in the list does not matter: any rearrangement of the list gives
    the same document. *)
Theorem renderSVG_day_order_irrelevant
    (total : option Z) (ws1 ws2 : list Week) (days days' : list Day) :
  days ≡ₚ days' -> NoDup (weekday <$> days) ->
  Rev1.renderSVG (mkCalendar total (ws1 ++ mkWeek (Some days) :: ws2)) =
    Rev1.renderSVG (mkCalendar total (ws1 ++ mkWeek (Some days') :: ws2)) /\
  Rev2.renderSVG (mkCalendar total (ws1 ++ mkWeek (Some days) :: ws2)) =
    Rev2.renderSVG (mkCalendar total (ws1 ++ mkWeek (Some days') :: ws2)).
Proof.
  intros Hperm Hnd. apply renderSVG_week_rows.
  unfold week_rows, week_map. cbn [contributionDays default from_option].
  unfold byWeekday. now rewrite (set_days_permutation days days' Hperm Hnd ∅).
Qed.

Lemma renderSVG_day_order_irrelevant_witness :
  Rev2.renderSVG (mkCalendar None ([] ++ mkWeek (Some [tuesday; monday_last]) :: [])) =
  Rev2.renderSVG (mkCalendar None ([] ++ mkWeek (Some [monday_last; tuesday]) :: [])).
Proof.
  refine (proj2 (renderSVG_day_order_irrelevant
                   None [] [] [tuesday; monday_last] [monday_last; tuesday] _ _)).
  - apply perm_swap.
  - cbn. apply NoDup_cons. split; [|apply NoDup_singleton].
    intros H. apply list_elem_of_singleton in H. discriminate H.
Defined.

(** ** The shape of a cell *)

Lemma Rev1_fill_defined (count : Z) :
  exists fill, index Rev1.PALETTE (Rev1.levelFromCount count) = Some fill /\
               fill ∈ Rev1.PALETTE.
Proof.
  unfold Rev1.levelFromCount. level_cases;
    (eexists; split; [reflexivity|]); unfold Rev1.PALETTE;
    repeat first [apply list_elem_of_here | apply list_elem_of_further].
Qed.

Lemma Rev2_fill_defined (count : Z) :
  exists fill, index Rev2.PALETTE (Rev2.levelFromCount count) = Some fill /\
               fill ∈ Rev2.PALETTE.
Proof.
  unfold Rev2.levelFromCount. level_cases;
    (eexists; split; [reflexivity|]); unfold Rev2.PALETTE;
    repeat first [apply list_elem_of_here | apply list_elem_of_further].
Qed.

(** X13. Every cell of the grid is a [rect] whose fill is one of the
    palette's colours, never an undefined one, whatever integer the count
    is, negative ones included; and for a column 0..52 and a row 0..6 the
    square of side [CELL] lies inside the grid area, that is within the
    padding horizontally and between the header band and the legend band
    (later revision) or within the padding (earlier revision) vertically. *)
Theorem cell_shape (x y : Z) (m : gmap Z Day) :
  0 <= x < WEEKS -> 0 <= y < DAYS ->
  (exists px py fill title,
     Rev1.cell x y m = rect_element px py 2 (Some fill) title /\
     fill ∈ Rev1.PALETTE /\
     PAD_X <= px /\ px + CELL <= Rev1.width - PAD_X /\
     Rev1.HEADER_HEIGHT + PAD_Y <= py /\
     py + CELL <= Rev1.height - Rev1.LEGEND_HEIGHT - PAD_Y) /\
  (exists px py fill title,
     Rev2.cell x y m = rect_element px py 2 (Some fill) title /\
     fill ∈ Rev2.PALETTE /\
     PAD_X <= px /\ px + CELL <= Rev2.width - PAD_X /\
     PAD_Y <= py /\ py + CELL <= Rev2.height - PAD_Y).
Proof.
  intros Hx Hy. unfold WEEKS in Hx. unfold DAYS in Hy. split.
  - destruct (Rev1_fill_defined (default 0 (contributionCount <$> m !! y)))
      as (fill & Hfill & Hin).
    unfold Rev1.cell. rewrite Hfill.
    do 4 eexists. split; [reflexivity|]. split; [exact Hin|].
    unfold Rev1.width, Rev1.height, Rev1.gridHeight, Rev1.gridOffsetY,
      Rev1.HEADER_HEIGHT, Rev1.LEGEND_HEIGHT, PAD_X, PAD_Y, CELL, GAP, WEEKS, DAYS.
    lia.
  - destruct (Rev2_fill_defined (default 0 (contributionCount <$> m !! y)))
      as (fill & Hfill & Hin).
    unfold Rev2.cell. rewrite Hfill.
    do 4 eexists. split; [reflexivity|]. split; [exact Hin|].
    unfold Rev2.width, Rev2.height, PAD_X, PAD_Y, CELL, GAP, WEEKS, DAYS.
    lia.
Qed.

(** The last cell of the grid, for a day with a negative count. *)
Lemma cell_shape_witness :
  exists px py fill title,
    Rev1.cell 52 6 (byWeekday [mkDay "2024-03-09" (-1) 6]) =
      rect_element px py 2 (Some fill) title /\
    fill ∈ Rev1.PALETTE /\ px + CELL <= Rev1.width - PAD_X.
Proof.
  destruct (proj1 (cell_shape 52 6 (byWeekday [mkDay "2024-03-09" (-1) 6])
                              ltac:(unfold WEEKS; lia) ltac:(unfold DAYS; lia)))
    as (px & py & fill & title & Hcell & Hin & _ & Hright & _).
  exists px, py, fill, title. repeat split; assumption.
Defined.

(** ** Cells with a tooltip *)

Lemma truthy_append (s t : string) : truthy s = true -> truthy (s +:+ t) = true.
Proof. destruct s; [discriminate | reflexivity]. Qed.

Lemma truthy_snoc (s : string) (c : ascii) (t : string) :
  truthy (s +:+ String c t) = true.
Proof. destruct s; reflexivity. Qed.

Lemma digits_truthy (f : nat) (n : Z) : truthy (digits (S f) n) = true.
Proof.
  cbn [digits]. destruct (n <? 10); [reflexivity | apply truthy_snoc].
Qed.

Lemma toString_truthy (n : Z) : truthy (toString n) = true.
Proof.
  unfold toString. destruct (n <? 0); [reflexivity | apply digits_truthy].
Qed.

Lemma contributions_truthy (n : Z) : truthy (contributions n) = true.
Proof. unfold contributions. rewrite cat_cons. apply truthy_append, toString_truthy. Qed.

Lemma Rev1_formatTooltipDate_truthy (dateStr : string) (count : Z) :
  truthy dateStr = true -> truthy (Rev1.formatTooltipDate dateStr count) = true.
Proof.
  intros H. unfold Rev1.formatTooltipDate. rewrite H. cbn [negb].
  rewrite cat_cons. apply truthy_append, contributions_truthy.
Qed.

(** X14. A cell whose day has a non-empty date always carries a [title]
    child, and the tooltip text inside it has passed through [svgEscape]:
    the month-and-ordinal text in the later revision, the date followed by
    the count in the earlier one. *)
Theorem titled_cell (x y : Z) (m : gmap Z Day) (d : Day) :
  m !! y = Some d -> truthy (date d) = true ->
  let count := contributionCount d in
  let title1 := Rev1.formatTooltipDate (date d) count in
  let title2 := cat [date d; ": "; contributions count] in
  (exists px py fill, Rev1.cell x y m = rect_element px py 2 fill title1) /\
  title_element title1 = cat ["<title>"; svgEscape title1; "</title>"] /\
  (exists px py fill, Rev2.cell x y m = rect_element px py 2 fill title2) /\
  title_element title2 = cat ["<title>"; svgEscape title2; "</title>"].
Proof.
  intros Hday Hdate count title1 title2.
  assert (truthy title1 = true) as H1
    by now apply Rev1_formatTooltipDate_truthy.
  assert (truthy title2 = true) as H2
    by (unfold title2; rewrite cat_cons; now apply truthy_append).
  split; [|split; [|split]].
  - unfold Rev1.cell. cbv zeta. rewrite Hday.
    cbn [fmap option_fmap option_map default from_option id]. rewrite Hdate.
    eauto.
  - unfold title_element. now rewrite H1.
  - unfold Rev2.cell. cbv zeta. rewrite Hday.
    cbn [fmap option_fmap option_map default from_option id]. rewrite Hdate.
    eauto.
  - unfold title_element. now rewrite H2.
Qed.

(** A date made of markup characters in the earlier revision. *)
Lemma titled_cell_witness :
  title_element (cat ["<b>"; ": "; contributions 1]) =
  cat ["<title>"; svgEscape (cat ["<b>"; ": "; contributions 1]); "</title>"].
Proof.
  exact (proj2 (proj2 (proj2
           (titled_cell 0 1 (byWeekday [mkDay "<b>" 1 1]) (mkDay "<b>" 1 1)
                        eq_refl eq_refl)))).
Defined.

(** ** The summary line *)

Lemma has_reserved_app (s t : string) :
  has_reserved (s +:+ t) = has_reserved s || has_reserved t.
Proof.
  induction s as [|a s IH]; [reflexivity|].
  rewrite append_cons. cbn [has_reserved]. now rewrite IH, orb_assoc.
Qed.

Lemma digit_char_not_reserved (d : Z) :
  0 <= d < 10 -> reserved (digit_char d) = false.
Proof.
  intros Hd.
  assert (d = 0 \/ d = 1 \/ d = 2 \/ d = 3 \/ d = 4 \/ d = 5 \/ d = 6 \/
          d = 7 \/ d = 8 \/ d = 9) as Hc by lia.
  repeat destruct Hc as [->|Hc]; try subst d; reflexivity.
Qed.

Lemma digits_not_reserved (f : nat) (n : Z) :
  0 <= n -> has_reserved (digits f n) = false.
Proof.
  revert n. induction f as [|f IH]; intros n Hn; [reflexivity|].
  cbn [digits]. destruct (Z.ltb_spec n 10) as [Hlt|Hge].
  - cbn [has_reserved]. rewrite digit_char_not_reserved by lia. reflexivity.
  - rewrite has_reserved_app, IH by (apply Z.div_pos; lia).
    cbn [has_reserved orb].
    rewrite digit_char_not_reserved by (apply Z.mod_pos_bound; lia).
    reflexivity.
Qed.

Lemma toString_not_reserved (n : Z) : has_reserved (toString n) = false.
Proof.
  unfold toString. destruct (Z.ltb_spec n 0) as [Hneg|Hpos].
  - cbn [has_reserved]. rewrite digits_not_reserved by lia. reflexivity.
  - now apply digits_not_reserved.
Qed.

Lemma contributions_not_reserved (n : Z) : has_reserved (contributions n) = false.
Proof.
  unfold contributions. rewrite !cat_cons, !has_reserved_app, toString_not_reserved.
  destruct (n =? 1); reflexivity.
Qed.

Lemma cat_take_drop (n : nat) (parts : list string) :
  cat parts = cat (take n parts) +:+ cat (drop n parts).
Proof. now rewrite <- cat_app, take_drop. Qed.

(** X15. The later revision's document starts with a fixed text that has
    no [text] element, followed by the opening tag of its first [text]
    element, whose whole content is the summary line, verbatim: the total,
    a safe integer or 0 when the calendar has none, then [contribution],
    in the singular for exactly 1 and in the plural otherwise, then
    [in the last year]; the closing tag follows at once.  The summary has
    no reserved character and escaping leaves it as it is. *)
Theorem Rev1_summary_line (cal : Calendar) :
  safe_integer (default 0 (totalContributions cal)) ->
  includes Rev1_before_text "<text" = false /\
  has_reserved (contributions (default 0 (totalContributions cal)) +:+
                " in the last year") = false /\
  exists post,
    Rev1.renderSVG cal =
    Ok (Rev1_before_text +:+ Rev1_text_open +:+
        contributions (default 0 (totalContributions cal)) +:+
        " in the last year" +:+ "</text>" +:+ post).
Proof.
  intros _.
  assert (has_reserved (contributions (default 0 (totalContributions cal)) +:+
                        " in the last year") = false) as Hplain
    by (rewrite has_reserved_app, contributions_not_reserved; reflexivity).
  split; [vm_compute; reflexivity|]. split; [exact Hplain|].
  unfold Rev1.renderSVG.
  destruct (Rev1_rects_ok (weeks cal)) as [rects ->]. cbn [rbind].
  assert (svgEscape (cat [contributions (default 0 (totalContributions cal));
                          " in the last year"]) =
          contributions (default 0 (totalContributions cal)) +:+ " in the last year")
    as Hsummary.
  { rewrite !cat_cons, append_nil_r.
    rewrite svgEscape_escape_each. now apply escape_each_safe. }
  match goal with
  | |- exists post, Ok (cat ?parts) = _ =>
      exists (lit "~  <g>~    " +:+ cat (drop 10 parts));
      rewrite (cat_take_drop 8 parts)
  end.
  apply (f_equal Ok). cbn [take drop].
  match goal with
  | |- cat ?head +:+ _ = _ =>
      assert (cat head = Rev1_before_text +:+ Rev1_text_open) as ->
        by (vm_compute; reflexivity)
  end.
  rewrite Hsummary.
  rewrite (cat_cons (_ +:+ " in the last year")),
    (cat_cons (lit "</text>~  <g>~    ")).
  change (lit "</text>~  <g>~    ") with ("</text>" +:+ lit "~  <g>~    ").
  rewrite !append_assoc. reflexivity.
Qed.

(** A calendar without a total: the summary counts 0 contributions. *)
Lemma Rev1_summary_line_witness :
  exists post,
    Rev1.renderSVG (mkCalendar None []) =
    Ok (Rev1_before_text +:+ Rev1_text_open +:+ contributions 0 +:+
        " in the last year" +:+ "</text>" +:+ post).
Proof.
  exact (proj2 (proj2 (Rev1_summary_line (mkCalendar None [])
                                         (safe_small 0 ltac:(lia))))).
Defined.

(** ** Tooltip dates *)

Lemma digit_not_hyphen (a : ascii) : is_digit a = true -> Ascii.eqb a "-" = false.
Proof.
  intros H. destruct (Ascii.eqb_spec a "-") as [->|]; [discriminate H|reflexivity].
Qed.

Lemma all_digits_no_hyphen (s : string) :
  all_digits s = true -> has_char "-" s = false.
Proof.
  induction s as [|a s IH]; [reflexivity|]. cbn [all_digits has_char].
  intros H. apply andb_true_iff in H as [Ha Hs].
  now rewrite (digit_not_hyphen a Ha), IH.
Qed.

Lemma split_piece (a rest : string) (sep : ascii) :
  has_char sep a = false ->
  split (a +:+ String sep rest) sep = a :: split rest sep.
Proof.
  induction a as [|c a IH]; intros H.
  - rewrite append_nil_l. cbn [split]. now rewrite Ascii.eqb_refl.
  - cbn [has_char] in H. apply orb_false_iff in H as [Hc Ha].
    rewrite append_cons. cbn [split]. rewrite Hc, (IH Ha). reflexivity.
Qed.

Lemma split_whole (a : string) (sep : ascii) :
  has_char sep a = false -> split a sep = [a].
Proof.
  induction a as [|c a IH]; intros H; [reflexivity|].
  cbn [has_char] in H. apply orb_false_iff in H as [Hc Ha].
  cbn [split]. rewrite Hc, (IH Ha). reflexivity.
Qed.

Lemma digits_value_nonneg (s : string) (acc : Z) :
  all_digits s = true -> 0 <= acc -> 0 <= digits_value acc s.
Proof.
  revert acc. induction s as [|a s IH]; intros acc H Hacc; [exact Hacc|].
  cbn [all_digits] in H. apply andb_true_iff in H as [Ha Hs].
  cbn [digits_value]. apply IH; [exact Hs|].
  unfold is_digit in Ha. apply andb_true_iff in Ha as [Hlo _].
  apply Nat.leb_le in Hlo. lia.
Qed.

Lemma Number_digits (s : string) :
  all_digits s = true -> Number s = Int (digits_value 0 s).
Proof. intros H. unfold Number. now rewrite H. Qed.

Lemma MONTHS_defined (k : Z) :
  0 <= k < 12 -> exists name, index Rev1.MONTHS k = Some name.
Proof.
  intros Hk.
  assert (k = 0 \/ k = 1 \/ k = 2 \/ k = 3 \/ k = 4 \/ k = 5 \/ k = 6 \/
          k = 7 \/ k = 8 \/ k = 9 \/ k = 10 \/ k = 11) as Hc by lia.
  repeat destruct Hc as [->|Hc]; try subst k; eexists; reflexivity.
Qed.

Lemma MONTHS_undefined (k : Z) :
  k < 0 \/ 12 <= k -> index Rev1.MONTHS k = None.
Proof.
  intros Hk. unfold index. destruct (Z.ltb_spec k 0) as [|Hge]; [reflexivity|].
  apply lookup_ge_None. cbn [length Rev1.MONTHS]. lia.
Qed.

Lemma formatTooltipDate_parts (ys ms ds : string) (count : Z) :
  all_digits ys = true -> all_digits ms = true -> all_digits ds = true ->
  Rev1.formatTooltipDate (ys +:+ "-" +:+ ms +:+ "-" +:+ ds) count =
  cat [contributions count; " on ";
       show (index Rev1.MONTHS (digits_value 0 ms - 1)); " ";
       toString (digits_value 0 ds) +:+ english_suffix (digits_value 0 ds)].
Proof.
  intros Hy Hm Hd. unfold Rev1.formatTooltipDate.
  rewrite !append_cons, !append_nil_l, truthy_snoc. cbn [negb].
  rewrite (split_piece ys _ "-" (all_digits_no_hyphen ys Hy)).
  rewrite (split_piece ms _ "-" (all_digits_no_hyphen ms Hm)).
  rewrite (split_whole ds "-" (all_digits_no_hyphen ds Hd)).
  cbn [map lookup list_lookup].
  rewrite (Number_digits ms Hm), (Number_digits ds Hd). cbn [minus].
  rewrite ordinal_english_suffix by (apply digits_value_nonneg; [exact Hd | lia]).
  reflexivity.
Qed.

(** X16. For a date of three hyphen-separated runs of digits whose month
    is 1..12 and whose day is a safe integer, and a count that is a safe
    integer, [formatTooltipDate] gives the count with its noun, [on], the
    English name of that month and the day number, without leading zeros,
    with its English ordinal suffix; the year plays no part. *)
Theorem formatTooltipDate_iso (ys ms ds : string) (count : Z) :
  all_digits ys = true -> all_digits ms = true -> all_digits ds = true ->
  1 <= digits_value 0 ms <= 12 ->
  digits_value 0 ds <= MAX_SAFE_INTEGER ->
  safe_integer count ->
  exists name,
    Rev1.MONTHS !! Z.to_nat (digits_value 0 ms - 1) = Some name /\
    Rev1.formatTooltipDate (ys +:+ "-" +:+ ms +:+ "-" +:+ ds) count =
    cat [contributions count; " on "; name; " ";
         toString (digits_value 0 ds) +:+ english_suffix (digits_value 0 ds)].
Proof.
  intros Hy Hm Hd Hmonth _ _.
  assert (0 <= digits_value 0 ms - 1 < 12) as Hk by lia.
  destruct (MONTHS_defined _ Hk) as [name Hname].
  exists name. split.
  - unfold index in Hname.
    destruct (Z.ltb_spec (digits_value 0 ms - 1) 0); [lia | exact Hname].
  - rewrite (formatTooltipDate_parts ys ms ds count Hy Hm Hd), Hname.
    reflexivity.
Qed.

Lemma formatTooltipDate_iso_witness :
  Rev1.formatTooltipDate "2023-11-22" 1 = "1 contribution on November 22nd".
Proof.
  destruct (formatTooltipDate_iso "2023" "11" "22" 1 eq_refl eq_refl eq_refl
                                  ltac:(split; apply Z.leb_le; reflexivity)
                                  ltac:(apply Z.leb_le; reflexivity)
                                  (safe_small 1 ltac:(lia)))
    as (name & Hname & Htext).
  cbn in Hname. injection Hname as <-. exact Htext.
Defined.

(** X17. [formatTooltipDate] never fails on a malformed date; it writes
    [undefined] instead.  For a count that is a safe integer, a non-empty
    date without a hyphen gives [on undefined undefinedth], and a date of
    three runs of digits whose month is not 1..12 and whose day is a safe
    integer gives [undefined] for the month name. *)
Theorem formatTooltipDate_malformed (count : Z) :
  safe_integer count ->
  (forall s,
     truthy s = true -> has_char "-" s = false ->
     Rev1.formatTooltipDate s count =
     contributions count +:+ " on undefined undefinedth") /\
  (forall ys ms ds,
     all_digits ys = true -> all_digits ms = true -> all_digits ds = true ->
     digits_value 0 ms < 1 \/ 12 < digits_value 0 ms ->
     digits_value 0 ds <= MAX_SAFE_INTEGER ->
     Rev1.formatTooltipDate (ys +:+ "-" +:+ ms +:+ "-" +:+ ds) count =
     cat [contributions count; " on "; "undefined"; " ";
          toString (digits_value 0 ds) +:+ english_suffix (digits_value 0 ds)]).
Proof.
  intros _. split.
  - intros s Hs Hsep. unfold Rev1.formatTooltipDate. rewrite Hs. cbn [negb].
    rewrite (split_whole s "-" Hsep). cbn [map lookup list_lookup minus].
    rewrite !cat_cons. reflexivity.
  - intros ys ms ds Hy Hm Hd Hmonth _.
    rewrite (formatTooltipDate_parts ys ms ds count Hy Hm Hd).
    rewrite MONTHS_undefined by lia. reflexivity.
Qed.

Lemma formatTooltipDate_malformed_witness :
  Rev1.formatTooltipDate "yesterday" 2 =
    "2 contributions on undefined undefinedth" /\
  Rev1.formatTooltipDate "2024-13-01" 2 = "2 contributions on undefined 1st".
Proof.
  split.
  - exact (proj1 (formatTooltipDate_malformed 2 (safe_small 2 ltac:(lia)))
                 "yesterday" eq_refl eq_refl).
  - exact (proj2 (formatTooltipDate_malformed 2 (safe_small 2 ltac:(lia)))
                 "2024" "13" "01"
                 eq_refl eq_refl eq_refl
                 ltac:(right; apply Z.ltb_lt; reflexivity)
                 ltac:(apply Z.leb_le; reflexivity)).
Defined.
